(** * DocuMind: the document-intelligence pipeline

    A shallow embedding of [services/gemini.ts] ([extractPdfMetadata],
    [interrogateDocuments]) and of the state handlers of [App.tsx]
    ([handleFileUpload], [handleSendMessage], [deleteDocument],
    [downloadDocument]), with the properties of the pipeline proved or
    refuted on it.

    Modelling conventions.
    - ECMAScript values are the inductive [JSValue]; a plain object is a
      finite map from property names to values.  The TypeScript interface
      [ExtractedDocument] is a record; [to_object] is the run-time object
      of a record.  What [JSON.parse] hands back is typed [any], so the
      corpus holds objects, not records.
    - Strings are Rocq strings: a character stands for one code unit, and
      only code units below 256 are represented.
    - The built-ins the code calls ([JSON.parse], [crypto.randomUUID],
      [Number.prototype.toString]) form the class [Platform]; every theorem
      holds for every platform.  [Reference] is one concrete platform, used
      to evaluate the code on concrete inputs.
    - The reasoning service is external: how it settles a request is an
      input of the function that awaits it ([GenerateContentResult]).
    - Code that may throw returns an [Outcome]; an async function whose
      promise rejects is an outcome that throws. *)

From Stdlib Require Import Ascii.
From stdpp Require Import base tactics option list gmap fin_maps strings pretty sorting.

Set Warnings "-register-all".

(** ** Exceptions and outcomes *)

Inductive Exn : Type :=
  | ServiceError (msg : string)   (* generateContent rejected: network or service *)
  | SyntaxError                   (* thrown by JSON.parse *)
  | TypeError                     (* thrown by ToString or by a method call on a non-string *)
  | Error (msg : string).         (* new Error(msg) *)

Inductive Outcome (A : Type) : Type :=
  | Returns (a : A)
  | Throws (e : Exn).
Arguments Returns {A} a.
Arguments Throws {A} e.

Global Instance Outcome_ret : MRet Outcome := @Returns.
Global Instance Outcome_bind : MBind Outcome := λ A B k o,
  match o with
  | Returns a => k a
  | Throws e => Throws e
  end.

(** [Array.prototype.map] with a callback that may throw. *)
Fixpoint Array_map {A B} (f : A → Outcome B) (l : list A) : Outcome (list B) :=
  match l with
  | [] => Returns []
  | x :: rest => y ← f x; ys ← Array_map f rest; Returns (y :: ys)
  end.

(** [Array.prototype.filter] with a callback that may throw. *)
Fixpoint Array_filter {A} (f : A → Outcome bool) (l : list A) : Outcome (list A) :=
  match l with
  | [] => Returns []
  | x :: rest =>
      keep ← f x; kept ← Array_filter f rest;
      Returns (if keep : bool then x :: kept else kept)
  end.

Definition returned {A} (o : Outcome A) : option A :=
  match o with Returns a => Some a | Throws _ => None end.

Definition thrown {A} (o : Outcome A) : option Exn :=
  match o with Returns _ => None | Throws e => Some e end.

(** ** Strings *)

Definition nl : string := String "010"%char EmptyString.
Definition dquote : string := String "034"%char EmptyString.

(** [a || b] on a value of type [string | undefined]: the empty string and
    [undefined] are falsy. *)
Definition or_else (a : option string) (b : string) : string :=
  match a with
  | Some s => if decide (s = "") then b else s
  | None => b
  end.

(** [Array.prototype.join] on an array of strings. *)
Fixpoint Array_join (sep : string) (l : list string) : string :=
  match l with
  | [] => ""
  | [x] => x
  | x :: rest => x +:+ sep +:+ Array_join sep rest
  end.

(** [s] occurs in [t], unmodified. *)
Definition substring_of (s t : string) : Prop :=
  ∃ before after, t = before +:+ s +:+ after.

Fixpoint starts_with (p s : string) : bool :=
  match p, s with
  | EmptyString, _ => true
  | String a p', String b s' => if decide (a = b) then starts_with p' s' else false
  | String _ _, EmptyString => false
  end.

(** [String.prototype.includes]. *)
Fixpoint includes (s p : string) : bool :=
  starts_with p s ||
  match s with
  | EmptyString => false
  | String _ s' => includes s' p
  end.

Fixpoint drop_chars (n : nat) (s : string) : string :=
  match n, s with
  | O, _ => s
  | S n', String _ s' => drop_chars n' s'
  | S _, EmptyString => EmptyString
  end.

(** [String.prototype.replace] with a string pattern: the first occurrence
    of [pat] is replaced (the replacement is taken literally; the code only
    passes the empty string). *)
Fixpoint String_replace (pat rep s : string) : string :=
  if starts_with pat s then rep +:+ drop_chars (String.length pat) s
  else match s with
       | EmptyString => EmptyString
       | String c s' => String c (String_replace pat rep s')
       end.

(** White space and line terminators below code unit 256. *)
Definition is_white_space (c : ascii) : bool :=
  let n := nat_of_ascii c in
  ((9 <=? n)%nat && (n <=? 13)%nat || (n =? 32)%nat || (n =? 160)%nat)%bool.

Fixpoint trim_start (s : string) : string :=
  match s with
  | EmptyString => EmptyString
  | String c s' => if is_white_space c then trim_start s' else s
  end.

(** [String.prototype.trim]. *)
Definition String_trim (s : string) : string :=
  String.rev (trim_start (String.rev (trim_start s))).

(** The lower-case form of a code unit below 256: the letters A to Z and
    the upper-case letters of Latin-1 move up by 32. *)
Definition lower_case (c : ascii) : ascii :=
  let n := nat_of_ascii c in
  if ((65 <=? n) && (n <=? 90) || (192 <=? n) && (n <=? 214) ||
      (216 <=? n) && (n <=? 222))%nat
  then ascii_of_nat (n + 32)
  else c.

(** [String.prototype.toLowerCase]. *)
Fixpoint String_toLowerCase (s : string) : string :=
  match s with
  | EmptyString => EmptyString
  | String c s' => String (lower_case c) (String_toLowerCase s')
  end.

(** [s.split(c)[0]]: the part of [s] before the first [c], all of [s] when
    there is none. *)
Fixpoint before_first (c : ascii) (s : string) : string :=
  match s with
  | EmptyString => EmptyString
  | String a s' => if decide (a = c) then EmptyString else String a (before_first c s')
  end.

(** ** ECMAScript values *)

Inductive JSValue (number : Type) : Type :=
  | JUndefined
  | JNull
  | JBool (b : bool)
  | JNumber (n : number)
  | JString (s : string)
  | JArray (elems : list (JSValue number))
  | JObject (props : gmap string (JSValue number)).
Arguments JUndefined {number}.
Arguments JNull {number}.
Arguments JBool {number} b.
Arguments JNumber {number} n.
Arguments JString {number} s.
Arguments JArray {number} elems.
Arguments JObject {number} props.

(** The built-ins of the host the code relies on. *)
Class Platform : Type := {
  number : Type;                                   (* IEEE doubles, kept abstract *)
  Number_toString : number → string;               (* Number.prototype.toString *)
  JSON_parse : string → option (JSValue number);   (* None: JSON.parse throws a SyntaxError *)
  crypto_randomUUID : nat → string;                (* the n-th identifier crypto.randomUUID() hands out *)
}.

(** [crypto.randomUUID] never repeats an identifier. *)
Definition fresh_uuids `{Platform} : Prop :=
  ∀ i j, crypto_randomUUID i = crypto_randomUUID j → i = j.

Abbreviation Value := (JSValue number).
Abbreviation Object := (gmap string (JSValue number)).

Section Values.
Context `{Platform}.

(** [o.k] on a plain object, for a name that [Object.prototype] does not
    define. *)
Definition Get (o : Object) (k : string) : Value :=
  default JUndefined (o !! k).

(** [v === s] for a string [s]. *)
Definition strict_eq_string (v : Value) (s : string) : bool :=
  match v with
  | JString s' => bool_decide (s' = s)
  | _ => false
  end.

Fixpoint char_properties (i : nat) (s : string) : list (string * Value) :=
  match s with
  | EmptyString => []
  | String c s' => (pretty i, JString (String c EmptyString)) :: char_properties (S i) s'
  end.

(** The own enumerable properties that an object spread [...v] copies. *)
Definition own_properties (v : Value) : Object :=
  match v with
  | JObject props => props
  | JArray elems => list_to_map (imap (λ i x, (pretty i, x)) elems)
  | JString s => list_to_map (char_properties 0 s)
  | JUndefined | JNull | JBool _ | JNumber _ => ∅
  end.

(** ToString, as a template literal applies it to a substitution.  A plain
    object with an own [toString] property (never callable in a value that
    came out of JSON) has no primitive value. *)
Fixpoint ToString (v : Value) : Outcome string :=
  match v with
  | JUndefined => Returns "undefined"
  | JNull => Returns "null"
  | JBool b => Returns (if b then "true" else "false")
  | JNumber n => Returns (Number_toString n)
  | JString s => Returns s
  | JArray elems =>
      (* Array.prototype.toString is join(): an undefined or null element
         is rendered as the empty string *)
      strings ← (fix elements (l : list Value) : Outcome (list string) :=
                   match l with
                   | [] => Returns []
                   | x :: rest =>
                       s ← match x with
                           | JUndefined | JNull => Returns ""
                           | _ => ToString x
                           end;
                       ss ← elements rest;
                       Returns (s :: ss)
                   end) elems;
      Returns (Array_join "," strings)
  | JObject props =>
      match props !! "toString" with
      | Some _ => Throws TypeError
      | None => Returns "[object Object]"
      end
  end.

End Values.

(** ** types.ts *)

Module Types.

Inductive Role : Type := user | assistant.

Inductive ProcessStatus : Type := IDLE | PROCESSING | COMPLETED | FAILED.

Section Interfaces.
Context `{Platform}.

Record ExtractedDocument : Type := {
  id : string;
  fileName : string;
  sender : string;
  recipient : string;
  date : string;
  summary : string;
  content : string;
  topics : list string;
  confidence : number;
}.

Record ChatMessage : Type := {
  role : Role;
  text : string;
  timestamp : nat;   (* a Date, as its time value *)
}.

(** The run-time object of a record of the interface. *)
Definition to_object (d : ExtractedDocument) : Object :=
  {[ "id" := JString (id d);
     "fileName" := JString (fileName d);
     "sender" := JString (sender d);
     "recipient" := JString (recipient d);
     "date" := JString (date d);
     "summary" := JString (summary d);
     "content" := JString (content d);
     "topics" := JArray (JString <$> topics d);
     "confidence" := JNumber (confidence d) ]}.

End Interfaces.
End Types.

(** ** services/gemini.ts *)

Module Gemini.

(** A [File] of the DOM.  Its bytes reach the service base64-encoded; no
    property below depends on them. *)
Record File : Type := {
  name : string;
  bytes : string;
}.

(** A call of [ai.models.generateContent]. *)
Inductive Request : Type :=
  | ExtractionRequest (file : File) (required : list string)
  | ChatRequest (systemInstruction : string) (contents : list (string * string)).

(** How the service settles one call: the promise rejects, or it fulfils
    with a response whose [text] is a string or [undefined]. *)
Inductive GenerateContentResult : Type :=
  | Rejects (msg : string)
  | Response (text : option string).

Record Download : Type := {
  download : string;   (* the anchor's download attribute *)
  blob : string;       (* the text of the Blob behind its href *)
}.

(** What the code touches outside the component's state. *)
Record World : Type := {
  uuids : nat;                      (* identifiers drawn from crypto.randomUUID so far *)
  requests : list Request;          (* calls of generateContent, oldest first *)
  console : list (string * Exn);    (* console.error(message, error), oldest first *)
  downloads : list Download;        (* downloads started, oldest first *)
}.

Definition W (A : Type) : Type := World → Outcome A * World.

Definition ret {A} (a : A) : W A := λ w, (Returns a, w).

Definition throw {A} (e : Exn) : W A := λ w, (Throws e, w).

Definition bind {A B} (c : W A) (k : A → W B) : W B := λ w,
  match c w with
  | (Returns a, w') => k a w'
  | (Throws e, w') => (Throws e, w')
  end.

(** [try { c } catch (error) { handler }]. *)
Definition try_catch {A} (c : W A) (handler : Exn → W A) : W A := λ w,
  match c w with
  | (Returns a, w') => (Returns a, w')
  | (Throws e, w') => handler e w'
  end.

(** A computation that touches nothing outside itself. *)
Definition pure {A} (o : Outcome A) : W A := λ w, (o, w).

Global Instance W_ret : MRet W := @ret.
Global Instance W_bind : MBind W := λ A B k c, bind c k.

Section Service.
Context `{Platform}.

Definition crypto_randomUUID_call : W string := λ w,
  (Returns (crypto_randomUUID (uuids w)),
   {| uuids := S (uuids w); requests := requests w;
      console := console w; downloads := downloads w |}).

Definition console_error (message : string) (error : Exn) : W unit := λ w,
  (Returns tt,
   {| uuids := uuids w; requests := requests w;
      console := console w ++ [(message, error)]; downloads := downloads w |}).

Definition logged (request : Request) (w : World) : World :=
  {| uuids := uuids w; requests := requests w ++ [request];
     console := console w; downloads := downloads w |}.

(** [await ai.models.generateContent(request)] and the [text] of the
    response: the request goes out, then the promise settles as [r] says. *)
Definition generateContent (request : Request) (r : GenerateContentResult)
  : W (option string) := λ w,
  match r with
  | Rejects msg => (Throws (ServiceError msg), logged request w)
  | Response text => (Returns text, logged request w)
  end.

Definition JSON_parse_call (text : string) : W Value :=
  pure (match JSON_parse text with
        | Some data => Returns data
        | None => Throws SyntaxError
        end).

(** The [required] list of the response schema. *)
Definition required : list string := ["sender"; "recipient"; "content"; "summary"].

(** The file is first read into a data URL, whose base64 part goes into
    the request; the read is taken to complete.  [r] is how the service
    settles the request. *)
Definition extractPdfMetadata (file : File) (r : GenerateContentResult) : W Object :=
  response_text ← generateContent (ExtractionRequest file required) r;
  try_catch
     (data ← JSON_parse_call (or_else response_text "{}");
      uuid ← crypto_randomUUID_call;
      (* { id: uuid, fileName: file.name, ...data }: a later property of the
         literal overwrites an earlier one of the same name *)
      ret (own_properties data ∪ {[ "id" := JString uuid; "fileName" := JString (name file) ]}))
     (λ error,
        console_error "Failed to parse Gemini response" error;;
        throw (Error "Failed to process document")).

(** The template literal that renders one document of the context. *)
Definition document_block (doc : Object) : Outcome string :=
  fileName ← ToString (Get doc "fileName");
  sender ← ToString (Get doc "sender");
  recipient ← ToString (Get doc "recipient");
  date ← ToString (Get doc "date");
  content ← ToString (Get doc "content");
  Returns ("[Document: " +:+ fileName +:+ ", Sender: " +:+ sender +:+
           ", Recipient: " +:+ recipient +:+ ", Date: " +:+ date +:+ "]" +:+ nl +:+
           "Content: " +:+ content).

Definition separator : string := nl +:+ nl +:+ "---" +:+ nl +:+ nl.

(** [documents.map(doc => ...).join(separator)]. *)
Definition context (documents : list Object) : Outcome string :=
  blocks ← Array_map document_block documents;
  Returns (Array_join separator blocks).

Definition systemPrompt (context : string) : string :=
  "You are a professional assistant analyzing a collection of uploaded documents. " +:+ nl +:+
  "  Below is the content of all currently uploaded documents. " +:+ nl +:+
  "  Your job is to answer the user's questions accurately based ONLY on the provided context. " +:+ nl +:+
  "  If the user asks " +:+ dquote +:+ "What did Jane say?" +:+ dquote +:+
  ", find all documents where Jane is the sender and synthesize her messages." +:+ nl +:+
  "  " +:+ nl +:+
  "  CONTEXT:" +:+ nl +:+
  "  " +:+ context.

Definition fallback : string :=
  "I couldn't find any information regarding that query in the provided documents.".

Definition contents (history : list (Types.Role * string)) (query : string)
  : list (string * string) :=
  map (λ h, (match h.1 with Types.user => "user" | Types.assistant => "model" end, h.2)) history
  ++ [("user", query)].

Definition interrogateDocuments (query : string) (documents : list Object)
    (history : list (Types.Role * string)) (r : GenerateContentResult) : W string :=
  context ← pure (context documents);
  response_text ← generateContent (ChatRequest (systemPrompt context) (contents history query)) r;
  ret (or_else response_text fallback).

End Service.
End Gemini.

(** ** App.tsx *)

Module App.
Import Gemini.

Inductive Tab : Type := upload | chat.

Record Progress : Type := {
  current : nat;
  total : nat;
}.

Section Component.
Context `{Platform}.

(** The values held by the component's [useState] hooks. *)
Record AppState : Type := {
  documents : list Object;
  isProcessing : bool;
  uploadProgress : Progress;
  chatMessages : list Types.ChatMessage;
  query : string;
  isChatLoading : bool;
  activeTab : Tab;
  searchTerm : string;
}.

Definition initial_state : AppState :=
  {| documents := []; isProcessing := false;
     uploadProgress := {| current := 0; total := 0 |};
     chatMessages := []; query := ""; isChatLoading := false;
     activeTab := upload; searchTerm := "" |}.

Record Machine : Type := {
  state : AppState;
  world : World;
}.

(** The states a handler has gone through, oldest first, and the one it is in. *)
Record Timeline : Type := {
  past : list Machine;
  now : Machine;
}.

Definition start (m : Machine) : Timeline := {| past := []; now := m |}.

Definition visited (t : Timeline) : list Machine := past t ++ [now t].

Definition step (f : Machine → Machine) (t : Timeline) : Timeline :=
  {| past := past t ++ [now t]; now := f (now t) |}.

Definition M (A : Type) : Type := Timeline → Outcome A * Timeline.

Definition M_ret {A} (a : A) : M A := λ t, (Returns a, t).

Definition M_bind {A B} (c : M A) (k : A → M B) : M B := λ t,
  match c t with
  | (Returns a, t') => k a t'
  | (Throws e, t') => (Throws e, t')
  end.

Global Instance M_mret : MRet M := @M_ret.
Global Instance M_mbind : MBind M := λ A B k c, M_bind c k.

(** [try { c } catch (error) { handler }]. *)
Definition M_try_catch {A} (c : M A) (handler : Exn → M A) : M A := λ t,
  match c t with
  | (Returns a, t') => (Returns a, t')
  | (Throws e, t') => handler e t'
  end.

(** [try { c } finally { f }]. *)
Definition M_try_finally {A} (c : M A) (f : M unit) : M A := λ t,
  match c t with
  | (o, t') =>
      match f t' with
      | (Returns _, t'') => (o, t'')
      | (Throws e, t'') => (Throws e, t'')
      end
  end.

(** A call into the service module or another effect on the world. *)
Definition await {A} (c : W A) : M A := λ t,
  match c (world (now t)) with
  | (o, w') => (o, step (λ m, {| state := state m; world := w' |}) t)
  end.

(** A state setter called with an updater function. *)
Definition setState (f : AppState → AppState) : M unit := λ t,
  (Returns tt, step (λ m, {| state := f (state m); world := world m |}) t).

Definition setDocuments (f : list Object → list Object) : M unit :=
  setState (λ s,
    {| documents := f (documents s); isProcessing := isProcessing s;
       uploadProgress := uploadProgress s; chatMessages := chatMessages s;
       query := query s; isChatLoading := isChatLoading s;
       activeTab := activeTab s; searchTerm := searchTerm s |}).

Definition setIsProcessing (b : bool) : M unit :=
  setState (λ s,
    {| documents := documents s; isProcessing := b;
       uploadProgress := uploadProgress s; chatMessages := chatMessages s;
       query := query s; isChatLoading := isChatLoading s;
       activeTab := activeTab s; searchTerm := searchTerm s |}).

Definition setUploadProgress (f : Progress → Progress) : M unit :=
  setState (λ s,
    {| documents := documents s; isProcessing := isProcessing s;
       uploadProgress := f (uploadProgress s); chatMessages := chatMessages s;
       query := query s; isChatLoading := isChatLoading s;
       activeTab := activeTab s; searchTerm := searchTerm s |}).

Definition setChatMessages (f : list Types.ChatMessage → list Types.ChatMessage) : M unit :=
  setState (λ s,
    {| documents := documents s; isProcessing := isProcessing s;
       uploadProgress := uploadProgress s; chatMessages := f (chatMessages s);
       query := query s; isChatLoading := isChatLoading s;
       activeTab := activeTab s; searchTerm := searchTerm s |}).

Definition setQuery (q : string) : M unit :=
  setState (λ s,
    {| documents := documents s; isProcessing := isProcessing s;
       uploadProgress := uploadProgress s; chatMessages := chatMessages s;
       query := q; isChatLoading := isChatLoading s;
       activeTab := activeTab s; searchTerm := searchTerm s |}).

Definition setIsChatLoading (b : bool) : M unit :=
  setState (λ s,
    {| documents := documents s; isProcessing := isProcessing s;
       uploadProgress := uploadProgress s; chatMessages := chatMessages s;
       query := query s; isChatLoading := b;
       activeTab := activeTab s; searchTerm := searchTerm s |}).

Definition setActiveTab (tab : Tab) : M unit :=
  setState (λ s,
    {| documents := documents s; isProcessing := isProcessing s;
       uploadProgress := uploadProgress s; chatMessages := chatMessages s;
       query := query s; isChatLoading := isChatLoading s;
       activeTab := tab; searchTerm := searchTerm s |}).

(** The body of [for (let i = 0; i < files.length; i++)], from index [i] on:
    [files] are the files not yet visited, each with the way the service
    settles its request; the result is [newDocs] when the loop ends. *)
Fixpoint for_loop (i : nat) (files : list (File * GenerateContentResult))
    (newDocs : list Object) : M (list Object) :=
  match files with
  | [] => mret newDocs
  | (file, r) :: rest =>
      newDocs ← M_try_catch
        (doc ← await (extractPdfMetadata file r);
         let newDocs := newDocs ++ [doc] in   (* newDocs.push(doc) *)
         setUploadProgress (λ prev, {| current := i + 1; total := total prev |});;
         mret newDocs)
        (λ error,
           await (console_error ("Error processing " +:+ name file +:+ ":") error);;
           mret newDocs);
      for_loop (S i) rest newDocs
  end.

(** [files] is the input's FileList (a null list returns at the guard like
    an empty one). *)
Definition handleFileUpload (files : list (File * GenerateContentResult)) : M unit :=
  if decide (files = []) then mret tt
  else
    setIsProcessing true;;
    setUploadProgress (λ _, {| current := 0; total := length files |});;
    setActiveTab upload;;
    newDocs ← for_loop 0 files [];
    setDocuments (λ prev, prev ++ newDocs);;
    setIsProcessing false.

(** [sent_at] and [answered_at] are the two values of [new Date()], [r] is
    how the service settles the request.  [e.preventDefault()] and the
    delayed [scrollToBottom] only touch the DOM and are left out. *)
Definition handleSendMessage (r : GenerateContentResult) (sent_at answered_at : nat)
  : M unit := λ t,
  (* the handler closes over the state of the render it was created in *)
  let s := state (now t) in
  if (bool_decide (String_trim (query s) = "") || isChatLoading s)%bool
  then (Returns tt, t)
  else
    (let userMessage :=
       {| Types.role := Types.user; Types.text := query s; Types.timestamp := sent_at |} in
     setChatMessages (λ prev, prev ++ [userMessage]);;
     setQuery "";;
     setIsChatLoading true;;
     M_try_finally
       (M_try_catch
          (response ← await (interrogateDocuments (query s) (documents s)
                               (map (λ m, (Types.role m, Types.text m)) (chatMessages s)) r);
           let assistantMessage :=
             {| Types.role := Types.assistant; Types.text := response;
                Types.timestamp := answered_at |} in
           setChatMessages (λ prev, prev ++ [assistantMessage]))
          (λ error, await (console_error "Chat error:" error)))
       (setIsChatLoading false)) t.

(** [setDocuments(prev => prev.filter(d => d.id !== id))]. *)
Definition deleteDocument (id : string) : M unit :=
  setDocuments (λ prev, List.filter (λ d, negb (strict_eq_string (Get d "id") id)) prev).

(** The text of the exported file. *)
Definition export_text (doc : Object) : Outcome string :=
  fileName ← ToString (Get doc "fileName");
  sender ← ToString (Get doc "sender");
  recipient ← ToString (Get doc "recipient");
  date ← ToString (Get doc "date");
  summary ← ToString (Get doc "summary");
  content ← ToString (Get doc "content");
  Returns ("FILENAME: " +:+ fileName +:+ nl +:+ "SENDER: " +:+ sender +:+ nl +:+
           "RECIPIENT: " +:+ recipient +:+ nl +:+ "DATE: " +:+ date +:+ nl +:+
           "SUMMARY: " +:+ summary +:+ nl +:+ nl +:+ "CONTENT:" +:+ nl +:+ content).

(** [doc.fileName.replace('.pdf', '')]: a method call on a string. *)
Definition export_name (doc : Object) : Outcome string :=
  match Get doc "fileName" with
  | JString fileName => Returns (String_replace ".pdf" "" fileName +:+ "_extracted.txt")
  | _ => Throws TypeError
  end.

(** [a.click()] on an anchor whose href is a Blob of [text]. *)
Definition click (download text : string) : W unit := λ w,
  (Returns tt,
   {| uuids := uuids w; requests := requests w; console := console w;
      downloads := downloads w ++ [{| download := download; blob := text |}] |}).

(** The text is rendered, then the name; the click starts the download. *)
Definition downloadDocument (doc : Object) : M unit :=
  await (text ← pure (export_text doc);
         download ← pure (export_name doc);
         click download text).

Definition double_rule : string := "==================================================".
Definition single_rule : string := "--------------------------------------------------".

(** The section of one document in the combined export. *)
Definition export_section (doc : Object) : Outcome string :=
  fileName ← ToString (Get doc "fileName");
  sender ← ToString (Get doc "sender");
  recipient ← ToString (Get doc "recipient");
  date ← ToString (Get doc "date");
  summary ← ToString (Get doc "summary");
  content ← ToString (Get doc "content");
  Returns (double_rule +:+ nl +:+
           "FILE: " +:+ fileName +:+ nl +:+
           "SENDER: " +:+ sender +:+ nl +:+
           "RECIPIENT: " +:+ recipient +:+ nl +:+
           "DATE: " +:+ date +:+ nl +:+
           "SUMMARY: " +:+ summary +:+ nl +:+
           single_rule +:+ nl +:+
           "CONTENT:" +:+ nl +:+ content +:+ nl +:+
           double_rule +:+ nl +:+ nl).

(** [documents.map(doc => ...).join('\n')]. *)
Definition combinedText (documents : list Object) : Outcome string :=
  sections ← Array_map export_section documents;
  Returns (Array_join nl sections).

(** [toISOString] is the value of [new Date().toISOString()]. *)
Definition downloadAllDocuments (toISOString : string) : M unit := λ t,
  let documents := documents (state (now t)) in
  if decide (length documents = 0) then (Returns tt, t)
  else
    await (text ← pure (combinedText documents);
           click ("documind_export_" +:+ before_first "T" toISOString +:+ ".txt") text) t.

(** [v.toLowerCase()]: a method call on a string. *)
Definition toLowerCase (v : Value) : Outcome string :=
  match v with
  | JString s => Returns (String_toLowerCase s)
  | _ => Throws TypeError
  end.

(** The callback of the filter behind [filteredDocs]; the operands of [||]
    are evaluated left to right, up to the first that is true. *)
Definition matches (searchTerm : string) (doc : Object) : Outcome bool :=
  fileName ← toLowerCase (Get doc "fileName");
  if includes fileName (String_toLowerCase searchTerm) then Returns true
  else
    sender ← toLowerCase (Get doc "sender");
    if includes sender (String_toLowerCase searchTerm) then Returns true
    else
      content ← toLowerCase (Get doc "content");
      Returns (includes content (String_toLowerCase searchTerm)).

(** Computed on every render from the corpus and the search term. *)
Definition filteredDocs (documents : list Object) (searchTerm : string)
  : Outcome (list Object) :=
  Array_filter (matches searchTerm) documents.

(** [documents.slice(-4).reverse()], the cards under Latest Extractions. *)
Definition latest_extractions (documents : list Object) : list Object :=
  reverse (drop (length documents - 4) documents).

End Component.
End App.

(** ** A reference platform

    Numbers are the integers, printed in decimal; the n-th identifier is
    [uuid-n]; [JSON_parse] reads the JSON texts whose numbers are integer
    literals and whose strings use no [\u] escape, and is only ever applied
    to such texts. *)

Module Reference.

Definition is_ws (c : ascii) : bool :=
  let n := nat_of_ascii c in
  ((n =? 32) || (n =? 9) || (n =? 10) || (n =? 13))%nat.

Fixpoint skip_ws (s : string) : string :=
  match s with
  | EmptyString => EmptyString
  | String c s' => if is_ws c then skip_ws s' else s
  end.

Definition unescape (c : ascii) : option ascii :=
  let n := nat_of_ascii c in
  if (n =? 34)%nat then Some c                      (* quotation mark *)
  else if (n =? 92)%nat then Some c                 (* reverse solidus *)
  else if (n =? 47)%nat then Some c                 (* solidus *)
  else if (n =? 98)%nat then Some "008"%char        (* b *)
  else if (n =? 102)%nat then Some "012"%char       (* f *)
  else if (n =? 110)%nat then Some "010"%char       (* n *)
  else if (n =? 114)%nat then Some "013"%char       (* r *)
  else if (n =? 116)%nat then Some "009"%char       (* t *)
  else None.

(** The characters of a string literal after its opening quotation mark,
    and the text after the closing one. *)
Fixpoint string_body (s : string) : option (string * string) :=
  match s with
  | EmptyString => None
  | String c s' =>
      let n := nat_of_ascii c in
      if (n =? 34)%nat then Some (EmptyString, s')
      else if (n =? 92)%nat then
        match s' with
        | EmptyString => None
        | String e s'' =>
            c' ← unescape e;
            '(str, rest) ← string_body s'';
            Some (String c' str, rest)
        end
      else if (n <? 32)%nat then None
      else '(str, rest) ← string_body s'; Some (String c str, rest)
  end.

Definition digit (c : ascii) : option Z :=
  let n := nat_of_ascii c in
  if ((48 <=? n) && (n <=? 57))%nat then Some (Z.of_nat (n - 48)) else None.

Fixpoint digits (acc : Z) (s : string) : Z * string :=
  match s with
  | EmptyString => (acc, s)
  | String c s' =>
      match digit c with
      | Some d => digits (10 * acc + d)%Z s'
      | None => (acc, s)
      end
  end.

(** An integer literal: no leading zero, no fraction, no exponent. *)
Definition integer (s : string) : option (Z * string) :=
  let '(negative, s) :=
    match s with
    | String c s' => if (nat_of_ascii c =? 45)%nat then (true, s') else (false, s)
    | EmptyString => (false, s)
    end in
  match s with
  | EmptyString => None
  | String c s' =>
      d ← digit c;
      let '(n, rest) := if (d =? 0)%Z then (0%Z, s') else digits d s' in
      match rest with
      | String c' _ =>
          if bool_decide (is_Some (digit c')) || bool_decide (c' ∈ ["."; "e"; "E"]%char)
          then None
          else Some (if negative then (- n)%Z else n, rest)
      | EmptyString => Some (if negative then (- n)%Z else n, rest)
      end
  end.

Fixpoint value (fuel : nat) (s : string) : option (JSValue Z * string) :=
  match fuel with
  | O => None
  | S fuel =>
      match skip_ws s with
      | EmptyString => None
      | String c s' as s0 =>
          let n := nat_of_ascii c in
          if (n =? 123)%nat then
            match skip_ws s' with
            | String c' rest =>
                if (nat_of_ascii c' =? 125)%nat then Some (JObject ∅, rest)
                else members fuel (String c' rest) ∅
            | EmptyString => None
            end
          else if (n =? 91)%nat then
            match skip_ws s' with
            | String c' rest =>
                if (nat_of_ascii c' =? 93)%nat then Some (JArray [], rest)
                else elements fuel (String c' rest) []
            | EmptyString => None
            end
          else if (n =? 34)%nat then
            '(str, rest) ← string_body s'; Some (JString str, rest)
          else if starts_with "true" s0 then Some (JBool true, drop_chars 4 s0)
          else if starts_with "false" s0 then Some (JBool false, drop_chars 5 s0)
          else if starts_with "null" s0 then Some (JNull, drop_chars 4 s0)
          else '(z, rest) ← integer s0; Some (JNumber z, rest)
      end
  end
with members (fuel : nat) (s : string) (acc : gmap string (JSValue Z))
  : option (JSValue Z * string) :=
  match fuel with
  | O => None
  | S fuel =>
      match skip_ws s with
      | String c s' =>
          if (nat_of_ascii c =? 34)%nat then
            '(key, rest) ← string_body s';
            match skip_ws rest with
            | String colon rest =>
                if (nat_of_ascii colon =? 58)%nat then
                  '(v, rest) ← value fuel rest;
                  let acc := <[key := v]> acc in
                  match skip_ws rest with
                  | String d rest =>
                      if (nat_of_ascii d =? 44)%nat then members fuel rest acc
                      else if (nat_of_ascii d =? 125)%nat then Some (JObject acc, rest)
                      else None
                  | EmptyString => None
                  end
                else None
            | EmptyString => None
            end
          else None
      | EmptyString => None
      end
  end
with elements (fuel : nat) (s : string) (acc : list (JSValue Z))
  : option (JSValue Z * string) :=
  match fuel with
  | O => None
  | S fuel =>
      '(v, rest) ← value fuel s;
      let acc := acc ++ [v] in
      match skip_ws rest with
      | String d rest =>
          if (nat_of_ascii d =? 44)%nat then elements fuel rest acc
          else if (nat_of_ascii d =? 93)%nat then Some (JArray acc, rest)
          else None
      | EmptyString => None
      end
  end.

Definition parse (text : string) : option (JSValue Z) :=
  '(v, rest) ← value (2 * String.length text + 2) text;
  if decide (skip_ws rest = EmptyString) then Some v else None.

Global Instance platform : Platform := {|
  number := Z;
  Number_toString := pretty;
  JSON_parse := parse;
  crypto_randomUUID := λ n, "uuid-" +:+ pretty n;
|}.

Definition quoted (s : string) : string := dquote +:+ s +:+ dquote.

(** A response text that conforms to the schema. *)
Definition letter_json : string :=
  "{" +:+ quoted "sender" +:+ ":" +:+ quoted "Jane" +:+ "," +:+
  quoted "recipient" +:+ ":" +:+ quoted "Bob" +:+ "," +:+
  quoted "date" +:+ ":" +:+ quoted "2024-03-01" +:+ "," +:+
  quoted "summary" +:+ ":" +:+ quoted "Jane asks Bob for figures." +:+ "," +:+
  quoted "content" +:+ ":" +:+ quoted "Dear Bob, please send the figures. Jane" +:+ "," +:+
  quoted "topics" +:+ ":[" +:+ quoted "budget" +:+ "]," +:+
  quoted "confidence" +:+ ":1}".

(** A response text that names the identifier itself. *)
Definition id_json : string :=
  "{" +:+ quoted "id" +:+ ":" +:+ quoted "x" +:+ "}".

Definition letter_pdf : Gemini.File := {| Gemini.name := "letter.pdf"; Gemini.bytes := "%PDF-1.7" |}.
Definition memo_pdf : Gemini.File := {| Gemini.name := "memo.pdf"; Gemini.bytes := "%PDF-1.4" |}.

(** A letter, as a record of the interface. *)
Definition letter : Types.ExtractedDocument :=
  {| Types.id := "uuid-0"; Types.fileName := "letter.pdf"; Types.sender := "Jane";
     Types.recipient := "Bob"; Types.date := "2024-03-01";
     Types.summary := "Jane asks Bob for figures.";
     Types.content := "Dear Bob, please send the figures. Jane";
     Types.topics := ["budget"]; Types.confidence := 1%Z |}.

Definition empty_world : Gemini.World :=
  {| Gemini.uuids := 0; Gemini.requests := []; Gemini.console := [];
     Gemini.downloads := [] |}.

Definition fresh_machine : App.Machine :=
  {| App.state := App.initial_state; App.world := empty_world |}.

(** The letter is in the corpus and a question is typed in. *)
Definition asking : App.Machine :=
  {| App.state :=
       {| App.documents := [Types.to_object letter]; App.isProcessing := false;
          App.uploadProgress := {| App.current := 1; App.total := 1 |};
          App.chatMessages := []; App.query := "What did Jane say?";
          App.isChatLoading := false; App.activeTab := App.chat;
          App.searchTerm := "" |};
     App.world :=
       {| Gemini.uuids := 1; Gemini.requests := []; Gemini.console := [];
          Gemini.downloads := [] |} |}.

(** A record without sender and content, as a response without text yields. *)
Definition bare_record : gmap string (JSValue Z) :=
  {[ "id" := JString "uuid-0"; "fileName" := JString "letter.pdf" ]}.

(** A record whose content is an object that has no primitive value. *)
Definition opaque_record : gmap string (JSValue Z) :=
  <[ "content" := JObject {[ "toString" := JNull ]} ]> (Types.to_object letter).

Definition memo : Types.ExtractedDocument :=
  {| Types.id := "uuid-1"; Types.fileName := "Memo.PDF"; Types.sender := "Bob";
     Types.recipient := "Jane"; Types.date := "2024-03-04";
     Types.summary := "Bob sends the figures.";
     Types.content := "Jane, the BUDGET figures are attached. Bob";
     Types.topics := ["budget"; "figures"]; Types.confidence := 1%Z |}.

(** The letter is extracted, the memo is not. *)
Definition mixed_batch : list (Gemini.File * Gemini.GenerateContentResult) :=
  [(letter_pdf, Gemini.Response (Some letter_json)); (memo_pdf, Gemini.Rejects "503")].

(** Only white space is typed in. *)
Definition blank : App.Machine :=
  {| App.state :=
       {| App.documents := [Types.to_object letter]; App.isProcessing := false;
          App.uploadProgress := {| App.current := 1; App.total := 1 |};
          App.chatMessages := [];
          App.query := " " +:+ String "009"%char EmptyString +:+ " ";
          App.isChatLoading := false; App.activeTab := App.chat;
          App.searchTerm := "" |};
     App.world := empty_world |}.

End Reference.


(** ** What the specification talks about *)

Module Spec.
Import Gemini App.

Section Notions.
Context `{Platform}.

(** Schema validation, in the words of the data model: [content] and
    [summary] are non-empty strings. *)
Definition validated (doc : Object) : Prop :=
  ∃ content summary,
    doc !! "content" = Some (JString content) ∧ content ≠ "" ∧
    doc !! "summary" = Some (JString summary) ∧ summary ≠ "".

(** The contract shape: an object with the required fields of the schema,
    each a string. *)
Definition contract_shape (data : Value) : Prop :=
  ∃ props, data = JObject props ∧
    Forall (λ k, ∃ s, props !! k = Some (JString s)) required.

(** The payload the extractor reads off a settled request, if any. *)
Definition payload (r : GenerateContentResult) : option Value :=
  match r with
  | Rejects _ => None
  | Response text => JSON_parse (or_else text "{}")
  end.

(** The object the extractor composes from a payload and the n-th identifier. *)
Definition record (file : File) (data : Value) (n : nat) : Object :=
  own_properties data ∪
  {[ "id" := JString (crypto_randomUUID n); "fileName" := JString (name file) ]}.

(** The successful extractions of a batch, in input order, when [n]
    identifiers have been drawn before it. *)
Fixpoint extracted (files : list (File * GenerateContentResult)) (n : nat) : list Object :=
  match files with
  | [] => []
  | (file, r) :: rest =>
      match payload r with
      | Some data => record file data n :: extracted rest (S n)
      | None => extracted rest n
      end
  end.

Definition succeeds (fr : File * GenerateContentResult) : Prop :=
  is_Some (payload fr.2).

Global Instance succeeds_dec fr : Decision (succeeds fr) := is_Some_dec _.

(** The labeled block of one document of the Corpus Context Builder: the
    header in brackets, a line break, the content line. *)
Definition labeled_block (d : Types.ExtractedDocument) : string :=
  "[Document: " +:+ Types.fileName d +:+ ", Sender: " +:+ Types.sender d +:+
  ", Recipient: " +:+ Types.recipient d +:+ ", Date: " +:+ Types.date d +:+ "]" +:+ nl +:+
  "Content: " +:+ Types.content d.

(** The text of an exported document, field by field. *)
Definition exported (d : Types.ExtractedDocument) : string :=
  "FILENAME: " +:+ Types.fileName d +:+ nl +:+ "SENDER: " +:+ Types.sender d +:+ nl +:+
  "RECIPIENT: " +:+ Types.recipient d +:+ nl +:+ "DATE: " +:+ Types.date d +:+ nl +:+
  "SUMMARY: " +:+ Types.summary d +:+ nl +:+ nl +:+ "CONTENT:" +:+ nl +:+ Types.content d.

(** The identifiers of a corpus. *)
Definition ids (docs : list Object) : list Value :=
  map (λ d, Get d "id") docs.

(** A payload, if any, that does not name the id itself. *)
Definition plain (r : GenerateContentResult) : Prop :=
  ∀ data, payload r = Some data → own_properties data !! "id" = None.

(** The user's operations on the corpus. *)
Inductive Action : Type :=
  | Upload (files : list (File * GenerateContentResult))
  | Delete (id : string).

Definition perform (a : Action) (m : Machine) : Machine :=
  match a with
  | Upload files => now (handleFileUpload files (start m)).2
  | Delete id => now (deleteDocument id (start m)).2
  end.

Definition run (actions : list Action) (m : Machine) : Machine :=
  foldl (λ m a, perform a m) m actions.

Definition plain_action (a : Action) : Prop :=
  match a with
  | Upload files => Forall (λ fr, plain fr.2) files
  | Delete _ => True
  end.

(** Every identifier of the corpus was drawn from the generator. *)
Definition drawn (m : Machine) : Prop :=
  Forall (λ id, ∃ n, n < uuids (world m) ∧ id = JString (crypto_randomUUID n))
         (ids (documents (state m))).

(** The invariant of the corpus. *)
Definition unique_ids (m : Machine) : Prop :=
  NoDup (ids (documents (state m))) ∧ drawn m.

(** [d.id !== id], the callback of the filter in deleteDocument. *)
Definition kept (id : string) (d : Object) : bool :=
  negb (strict_eq_string (Get d "id") id).

(** How a template literal shows a property that is a string or absent. *)
Definition shown (doc : Object) (k : string) : string :=
  match doc !! k with
  | Some (JString s) => s
  | _ => "undefined"
  end.

Definition string_or_absent (doc : Object) (k : string) : Prop :=
  doc !! k = None ∨ ∃ s, doc !! k = Some (JString s).

(** The reading of the progress counter after the files of a batch from
    index [i] on, when it reads [c] before them: one more than the index of
    the last file whose extraction succeeds. *)
Fixpoint last_success (i : nat) (files : list (File * GenerateContentResult)) (c : nat) : nat :=
  match files with
  | [] => c
  | (_, r) :: rest =>
      last_success (S i) rest (match payload r with Some _ => i + 1 | None => c end)
  end.

(** What one attempt of a batch writes to the console. *)
Definition attempt_log (fr : File * GenerateContentResult) : list (string * Exn) :=
  match fr.2 with
  | Rejects msg => [("Error processing " +:+ name fr.1 +:+ ":", ServiceError msg)]
  | Response text =>
      match JSON_parse (or_else text "{}") with
      | Some _ => []
      | None => [("Failed to parse Gemini response", SyntaxError);
                 ("Error processing " +:+ name fr.1 +:+ ":",
                  Error "Failed to process document")]
      end
  end.

(** The search term occurs, letter case aside, in the file name, the sender
    or the content. *)
Definition found (searchTerm : string) (d : Types.ExtractedDocument) : Prop :=
  substring_of (String_toLowerCase searchTerm) (String_toLowerCase (Types.fileName d)) ∨
  substring_of (String_toLowerCase searchTerm) (String_toLowerCase (Types.sender d)) ∨
  substring_of (String_toLowerCase searchTerm) (String_toLowerCase (Types.content d)).

Definition found_b (searchTerm : string) (d : Types.ExtractedDocument) : bool :=
  includes (String_toLowerCase (Types.fileName d)) (String_toLowerCase searchTerm) ||
  includes (String_toLowerCase (Types.sender d)) (String_toLowerCase searchTerm) ||
  includes (String_toLowerCase (Types.content d)) (String_toLowerCase searchTerm).

(** The section of a document of the interface in the combined export. *)
Definition exported_section (d : Types.ExtractedDocument) : string :=
  double_rule +:+ nl +:+
  "FILE: " +:+ Types.fileName d +:+ nl +:+
  "SENDER: " +:+ Types.sender d +:+ nl +:+
  "RECIPIENT: " +:+ Types.recipient d +:+ nl +:+
  "DATE: " +:+ Types.date d +:+ nl +:+
  "SUMMARY: " +:+ Types.summary d +:+ nl +:+
  single_rule +:+ nl +:+
  "CONTENT:" +:+ nl +:+ Types.content d +:+ nl +:+
  double_rule +:+ nl +:+ nl.

(** Two states of the component that differ at most in the reading of the
    progress counter. *)
Definition same_but_current (s s' : AppState) : Prop :=
  documents s' = documents s ∧ isProcessing s' = isProcessing s ∧
  chatMessages s' = chatMessages s ∧ query s' = query s ∧
  isChatLoading s' = isChatLoading s ∧ activeTab s' = activeTab s ∧
  searchTerm s' = searchTerm s ∧
  total (uploadProgress s') = total (uploadProgress s).

Definition reading (m : Machine) : nat := current (uploadProgress (state m)).

(** The chat and the search box are as they were. *)
Definition chat_untouched (m m' : Machine) : Prop :=
  chatMessages (state m') = chatMessages (state m) ∧ query (state m') = query (state m) ∧
  isChatLoading (state m') = isChatLoading (state m) ∧
  searchTerm (state m') = searchTerm (state m).

End Notions.
End Spec.

(** * Properties *)

(** ** Strings *)

Lemma string_app_cons c s t : String c s +:+ t = String c (s +:+ t).
Proof. reflexivity. Qed.

Lemma string_app_nil_l s : "" +:+ s = s.
Proof. reflexivity. Qed.

Lemma string_app_nil_r s : s +:+ "" = s.
Proof. induction s as [|c s IH]; [done|]. by rewrite string_app_cons, IH. Qed.

Lemma string_app_assoc s t u : (s +:+ t) +:+ u = s +:+ t +:+ u.
Proof. induction s as [|c s IH]; [done|]. by rewrite !string_app_cons, IH. Qed.

Lemma substring_of_refl s : substring_of s s.
Proof. exists "", "". by rewrite string_app_nil_l, string_app_nil_r. Qed.

Lemma substring_of_app_l s t u : substring_of s t → substring_of s (t +:+ u).
Proof.
  intros (a & b & ->). exists a, (b +:+ u). by rewrite !string_app_assoc.
Qed.

Lemma substring_of_app_r s t u : substring_of s u → substring_of s (t +:+ u).
Proof.
  intros (a & b & ->). exists (t +:+ a), b. by rewrite !string_app_assoc.
Qed.

Lemma starts_with_spec p s : starts_with p s = true ↔ ∃ rest, s = p +:+ rest.
Proof.
  revert s. induction p as [|a p IH]; intros s; simpl.
  - split; [intros _; by exists s|done].
  - destruct s as [|b s].
    + split; [done|]. intros [rest Hrest]. by rewrite string_app_cons in Hrest.
    + case_decide as Hab.
      * subst b. rewrite IH. split.
        -- intros [rest ->]. by exists rest.
        -- intros [rest Hrest]. rewrite string_app_cons in Hrest. exists rest. congruence.
      * split; [done|]. intros [rest Hrest]. rewrite string_app_cons in Hrest. congruence.
Qed.

Lemma includes_spec s p : includes s p = true ↔ substring_of p s.
Proof.
  induction s as [|c s IH].
  - simpl. rewrite orb_false_r, starts_with_spec. split.
    + intros [rest ->]. exists "", rest. by rewrite string_app_nil_l.
    + intros (a & b & Hab). destruct a; [|by rewrite string_app_cons in Hab].
      exists b. by rewrite string_app_nil_l in Hab.
  - cbn [includes]. rewrite orb_true_iff, IH, starts_with_spec. split.
    + intros [[rest ->]|(a & b & ->)].
      * exists "", rest. by rewrite string_app_nil_l.
      * exists (String c a), b. by rewrite string_app_cons.
    + intros (a & b & Hab). destruct a as [|c' a].
      * left. exists b. by rewrite string_app_nil_l in Hab.
      * right. rewrite string_app_cons in Hab. exists a, b. congruence.
Qed.

Lemma substring_of_Array_join sep s x l :
  x ∈ l → substring_of s x → substring_of s (Array_join sep l).
Proof.
  induction l as [|y l IH]; [by intros ?%elem_of_nil|].
  intros [->|Hx]%elem_of_cons Hs.
  - destruct l; [done|]. by apply substring_of_app_l.
  - destruct l as [|z l]; [by apply elem_of_nil in Hx|].
    change (Array_join sep (y :: z :: l)) with (y +:+ sep +:+ Array_join sep (z :: l)).
    do 2 apply substring_of_app_r. by apply IH.
Qed.

(** ** The Corpus Context Builder *)

Section Context_builder.
Context `{Platform}.
Import Gemini.

Lemma document_block_to_object (d : Types.ExtractedDocument) :
  document_block (Types.to_object d) = Returns (Spec.labeled_block d).
Proof. reflexivity. Qed.

Lemma Array_map_to_object (docs : list Types.ExtractedDocument) :
  Array_map document_block (Types.to_object <$> docs)
  = Returns (Spec.labeled_block <$> docs).
Proof.
  induction docs as [|d docs IH]; [done|].
  rewrite fmap_cons. cbn [Array_map].
  rewrite document_block_to_object, IH. reflexivity.
Qed.

Lemma context_to_object (docs : list Types.ExtractedDocument) :
  context (Types.to_object <$> docs)
  = Returns (Array_join separator (Spec.labeled_block <$> docs)).
Proof. unfold context. by rewrite Array_map_to_object. Qed.

Lemma labeled_block_fileName (d : Types.ExtractedDocument) :
  substring_of (Types.fileName d) (Spec.labeled_block d).
Proof. by eexists "[Document: ", _. Qed.

Lemma labeled_block_content (d : Types.ExtractedDocument) :
  substring_of (Types.content d) (Spec.labeled_block d).
Proof.
  unfold Spec.labeled_block. do 11 apply substring_of_app_r. apply substring_of_refl.
Qed.

(** C5. The context built from an empty corpus is the empty string.  For a
    corpus of documents of the interface, the context is the join, with the
    fixed separator and in corpus order, of one labeled block per document
    (bracketed header, line break, then the content), and so contains every
    document's fileName and content unmodified.  The separator is not empty:
    it is a line of three dashes between two blank lines, so that the
    context of a document put before a corpus that is not empty is its
    block, that separator, and the context of the corpus; before an empty
    corpus it is the block alone. *)
Theorem context_blocks :
  context [] = Returns "" ∧
  separator = nl +:+ nl +:+ "---" +:+ nl +:+ nl ∧
  ∀ docs : list Types.ExtractedDocument,
    ∃ text,
      context (Types.to_object <$> docs) = Returns text ∧
      text = Array_join separator (Spec.labeled_block <$> docs) ∧
      Forall (λ d, substring_of (Types.fileName d) text ∧
                   substring_of (Types.content d) text) docs ∧
      ∀ d : Types.ExtractedDocument,
        context (Types.to_object <$> d :: docs)
        = Returns (match docs with
                   | [] => Spec.labeled_block d
                   | _ :: _ => Spec.labeled_block d +:+
                               nl +:+ nl +:+ "---" +:+ nl +:+ nl +:+ text
                   end).
Proof.
  split; [done|]. split; [done|].
  intros docs. eexists. split; [apply context_to_object|].
  split; [done|]. split.
  - apply Forall_forall. intros d Hd. split.
    + eapply substring_of_Array_join; [|apply labeled_block_fileName].
      by apply list_elem_of_fmap_2.
    + eapply substring_of_Array_join; [|apply labeled_block_content].
      by apply list_elem_of_fmap_2.
  - intros d. rewrite context_to_object. destruct docs as [|d' docs]; [done|].
    rewrite !fmap_cons. cbn [Array_join]. reflexivity.
Qed.

End Context_builder.

(** ** Export *)

Section Download.
Context `{Platform}.
Import Gemini App.

Lemma export_text_to_object (d : Types.ExtractedDocument) :
  export_text (Types.to_object d) = Returns (Spec.exported d).
Proof. reflexivity. Qed.

Lemma export_name_to_object (d : Types.ExtractedDocument) :
  export_name (Types.to_object d)
  = Returns (String_replace ".pdf" "" (Types.fileName d) +:+ "_extracted.txt").
Proof. reflexivity. Qed.

(** C9, as amended.  For every document of the interface, downloadDocument
    starts one download whose text contains the document's fileName, sender,
    recipient, date, summary and content, each unmodified; topics and
    confidence (and id) are not part of the export: whatever they are, the
    text is the same, and so is the whole run of downloadDocument. *)
Theorem export_contains_rendered_fields (d : Types.ExtractedDocument) (m : Machine) :
  ∃ text,
    export_text (Types.to_object d) = Returns text ∧
    (downloadDocument (Types.to_object d) (start m)).1 = Returns tt ∧
    downloads (world (now (downloadDocument (Types.to_object d) (start m)).2))
    = downloads (world m) ++
      [{| download := String_replace ".pdf" "" (Types.fileName d) +:+ "_extracted.txt";
          blob := text |}] ∧
    substring_of (Types.fileName d) text ∧
    substring_of (Types.sender d) text ∧
    substring_of (Types.recipient d) text ∧
    substring_of (Types.date d) text ∧
    substring_of (Types.summary d) text ∧
    substring_of (Types.content d) text ∧
    ∀ (id' : string) (topics' : list string) (confidence' : number),
      let d' := {| Types.id := id'; Types.fileName := Types.fileName d;
                   Types.sender := Types.sender d; Types.recipient := Types.recipient d;
                   Types.date := Types.date d; Types.summary := Types.summary d;
                   Types.content := Types.content d;
                   Types.topics := topics'; Types.confidence := confidence' |} in
      export_text (Types.to_object d') = Returns text ∧
      downloadDocument (Types.to_object d') (start m)
      = downloadDocument (Types.to_object d) (start m).
Proof.
  exists (Spec.exported d). split; [apply export_text_to_object|].
  split; [done|]. split; [done|]. unfold Spec.exported.
  split; [by eexists "FILENAME: ", _|].
  split; [do 4 apply substring_of_app_r; apply substring_of_app_l, substring_of_refl|].
  split; [do 7 apply substring_of_app_r; apply substring_of_app_l, substring_of_refl|].
  split; [do 10 apply substring_of_app_r; apply substring_of_app_l, substring_of_refl|].
  split; [do 13 apply substring_of_app_r; apply substring_of_app_l, substring_of_refl|].
  split; [do 18 apply substring_of_app_r; apply substring_of_refl|].
  intros id' topics' confidence'. cbn zeta. split; [apply export_text_to_object|].
  reflexivity.
Qed.

End Download.

(** C9, as stated, fails: the export of the reference memo contains
    neither its topic budget (the content has the word in capitals only)
    nor its confidence. *)
Lemma export_omits_topics_and_confidence :
  ∃ text,
    App.export_text (Types.to_object Reference.memo) = Returns text ∧
    ¬ Forall (λ topic, substring_of topic text) (Types.topics Reference.memo) ∧
    ¬ substring_of (Number_toString (Platform := Reference.platform)
                      (Types.confidence Reference.memo)) text.
Proof.
  eexists. split; [reflexivity|]. split.
  - intros Htopics. apply Forall_cons in Htopics as [Htopic _].
    apply includes_spec in Htopic. vm_compute in Htopic. discriminate.
  - intros Hconfidence.
    apply includes_spec in Hconfidence. vm_compute in Hconfidence. discriminate.
Qed.

(** ** The Interrogation Engine *)

Section Interrogation.
Context `{Platform}.
Import Gemini App.

Lemma or_else_nonempty (text : option string) (b : string) :
  b ≠ "" → or_else text b ≠ "".
Proof. intros Hb. destruct text as [s|]; simpl; [by case_decide|done]. Qed.

Lemma fallback_nonempty : fallback ≠ "".
Proof. done. Qed.

Lemma interrogateDocuments_response query documents history text w :
  (interrogateDocuments query documents history (Response text) w).1
  = match context documents with
    | Returns _ => Returns (or_else text fallback)
    | Throws e => Throws e
    end.
Proof.
  unfold interrogateDocuments, mbind, W_bind, bind, pure.
  by destruct (context documents).
Qed.

Lemma interrogateDocuments_rejects query documents history msg w :
  ∃ e w', interrogateDocuments query documents history (Rejects msg) w = (Throws e, w').
Proof.
  unfold interrogateDocuments, mbind, W_bind, bind, pure.
  destruct (context documents); simpl; eauto.
Qed.

Lemma ToString_throws (v : Value) (e : Exn) : ToString v = Throws e → e = TypeError.
Proof.
  revert v e. fix IH 1. intros v e. destruct v as [| | | | |elems|props]; simpl; try done.
  - match goal with |- context [?f elems] => set (elements := f) end.
    assert (Helems : ∀ e', elements elems = Throws e' → e' = TypeError).
    { clear e. induction elems as [|x elems IHelems]; intros e'; [done|].
      unfold elements; simpl; fold elements.
      pose proof (IH x) as IHx.
      destruct (match x with JUndefined | JNull => Returns "" | _ => ToString x end)
        as [s|e0] eqn:Hhead; simpl.
      - destruct (elements elems) eqn:Hrest; simpl; [done|].
        intros [= <-]. by eapply IHelems.
      - intros [= <-]. destruct x; try done; by apply IHx. }
    destruct (elements elems) eqn:Hel; simpl; [done|]. intros [= <-]. by eapply Helems.
  - destruct (props !! "toString"); [by intros [= <-]|done].
Qed.

Lemma document_block_throws (doc : Object) (e : Exn) :
  document_block doc = Throws e → e = TypeError.
Proof.
  unfold document_block, mbind, Outcome_bind.
  repeat (match goal with
          | |- context [ToString ?v] =>
              let Hv := fresh in
              destruct (ToString v) eqn:Hv; [|intros [= <-]; by eapply ToString_throws]
          end).
  done.
Qed.

Lemma context_throws (documents : list Object) (e : Exn) :
  context documents = Throws e → e = TypeError.
Proof.
  unfold context.
  destruct (Array_map document_block documents) as [blocks|e0] eqn:Hmap; [done|].
  intros [= <-]. revert e0 Hmap.
  induction documents as [|doc documents IH]; intros e0; [done|].
  cbn [Array_map].
  destruct (document_block doc) eqn:Hdoc; simpl.
  - destruct (Array_map document_block documents); simpl; [done|].
    intros [= <-]. by apply IH.
  - intros [= <-]. by eapply document_block_throws.
Qed.

(** C6. Whatever the query, corpus and history: when the service answers,
    the engine returns the answer, or the fixed fallback message when the
    answer is empty or absent, and never the empty string; the only other
    outcome is the TypeError of a corpus whose context cannot be rendered,
    which no corpus of documents of the interface raises. *)
Theorem interrogateDocuments_never_empty query history w :
  (∀ documents text,
     match (interrogateDocuments query documents history (Response text) w).1 with
     | Returns answer => answer ≠ "" ∧ answer = or_else text fallback
     | Throws e => e = TypeError
     end) ∧
  (∀ docs : list Types.ExtractedDocument,
     (interrogateDocuments query (Types.to_object <$> docs) history (Response (Some "")) w).1
     = Returns fallback ∧
     ∀ text, ∃ answer,
       (interrogateDocuments query (Types.to_object <$> docs) history (Response text) w).1
       = Returns answer ∧ answer ≠ "").
Proof.
  split.
  - intros documents text. rewrite interrogateDocuments_response.
    destruct (context documents) eqn:Hctx.
    + split; [|done]. apply or_else_nonempty, fallback_nonempty.
    + by eapply context_throws.
  - intros docs. split.
    + by rewrite interrogateDocuments_response, context_to_object.
    + intros text. eexists.
      rewrite interrogateDocuments_response, context_to_object.
      split; [done|]. apply or_else_nonempty, fallback_nonempty.
Qed.

End Interrogation.

(** ** Sending a message *)

Section Chat.
Context `{Platform}.
Import Gemini App.

(** C7. When the request of a submitted query is rejected by the service,
    the handler itself completes normally, the history ends with the
    user's turn and holds no assistant turn from this query at any point,
    the corpus is never touched, and the error is logged. *)
Theorem failed_query_leaves_no_assistant_turn
    (m : Machine) (msg : string) (sent_at answered_at : nat) :
  String_trim (query (state m)) ≠ "" →
  isChatLoading (state m) = false →
  let run := handleSendMessage (Rejects msg) sent_at answered_at (start m) in
  let userMessage :=
    {| Types.role := Types.user; Types.text := query (state m);
       Types.timestamp := sent_at |} in
  run.1 = Returns tt ∧
  chatMessages (state (now run.2)) = chatMessages (state m) ++ [userMessage] ∧
  documents (state (now run.2)) = documents (state m) ∧
  Forall (λ m', documents (state m') = documents (state m) ∧
                (chatMessages (state m') = chatMessages (state m) ∨
                 chatMessages (state m') = chatMessages (state m) ++ [userMessage]))
         (visited run.2) ∧
  ∃ e, last (console (world (now run.2))) = Some ("Chat error:", e).
Proof.
  intros Hquery Hloading. unfold handleSendMessage. cbn [start now].
  rewrite bool_decide_eq_false_2, Hloading by done. cbn [orb].
  unfold mbind, M_mbind, M_bind, M_try_finally, M_try_catch, await,
    setChatMessages, setQuery, setIsChatLoading, setState, step. simpl.
  match goal with
  | |- context [interrogateDocuments ?q ?d ?h ?r ?w] =>
      destruct (interrogateDocuments_rejects q d h msg w) as (e & w' & ->)
  end.
  simpl. split; [done|]. split; [done|]. split; [done|]. split.
  - unfold visited. simpl. repeat (apply Forall_cons; split; [by auto|]).
    by apply Forall_nil.
  - exists e. by rewrite last_snoc.
Qed.

End Chat.

(** ** The Document Extractor *)

Section Extractor.
Context `{Platform}.
Import Gemini App.

Lemma extractPdfMetadata_unfold file r w :
  extractPdfMetadata file r w =
  let w1 := logged (ExtractionRequest file required) w in
  match r with
  | Rejects msg => (Throws (ServiceError msg), w1)
  | Response text =>
      match JSON_parse (or_else text "{}") with
      | Some data =>
          (Returns (Spec.record file data (uuids w)),
           {| uuids := S (uuids w); requests := requests w1;
              console := console w; downloads := downloads w |})
      | None =>
          (Throws (Error "Failed to process document"),
           {| uuids := uuids w; requests := requests w1;
              console := console w ++ [("Failed to parse Gemini response", SyntaxError)];
              downloads := downloads w |})
      end
  end.
Proof.
  unfold extractPdfMetadata, mbind, W_bind, bind, try_catch, generateContent,
    JSON_parse_call, pure.
  destruct r as [msg|text]; [done|]. simpl.
  by destruct (JSON_parse (or_else text "{}")).
Qed.

Lemma extractPdfMetadata_payload file r w :
  (extractPdfMetadata file r w).1 =
  match Spec.payload r with
  | Some data => Returns (Spec.record file data (uuids w))
  | None => Throws (match r with
                    | Rejects msg => ServiceError msg
                    | Response _ => Error "Failed to process document"
                    end)
  end.
Proof.
  rewrite extractPdfMetadata_unfold. destruct r as [msg|text]; simpl; [done|].
  by destruct (JSON_parse (or_else text "{}")).
Qed.

(** C3, as amended.  The extractor fails exactly when the service call is
    rejected or the response text (the text of an empty object when the
    response has none) is not valid JSON; it then throws, the service error
    in the first case and the error of a failed processing in the second,
    and returns no record.  Whether the parsed payload has the fields of
    the contract plays no part. *)
Theorem extraction_fails_iff (file : File) (r : GenerateContentResult) (w : World) :
  let outcome := (extractPdfMetadata file r w).1 in
  (is_Some (thrown outcome) ↔
     (∃ msg, r = Rejects msg) ∨
     (∃ text, r = Response text ∧ JSON_parse (or_else text "{}") = None)) ∧
  (is_Some (thrown outcome) ↔ returned outcome = None) ∧
  thrown outcome =
    match r with
    | Rejects msg => Some (ServiceError msg)
    | Response text =>
        match JSON_parse (or_else text "{}") with
        | Some _ => None
        | None => Some (Error "Failed to process document")
        end
    end.
Proof.
  simpl. rewrite extractPdfMetadata_unfold.
  destruct r as [msg|text]; simpl.
  - split; [|done]. split; [eauto|by eauto].
  - destruct (JSON_parse (or_else text "{}")) as [data|] eqn:Hparse; simpl.
    + split; [|split; [|done]].
      * split; [by intros [? ?]|]. intros [[? ?]|(? & [= <-] & ?)]; congruence.
      * split; [by intros [? ?]|done].
    + split; [|done]. split; [eauto|by eauto].
Qed.

(** C1, as amended.  When an extraction succeeds, every property of the
    record other than id and fileName is the parsed payload's, unchanged:
    content and summary are present and non-empty only if the service made
    them so, and nothing is validated.  When the payload has no id
    property, the id is the identifier drawn for this record, distinct from
    every identifier drawn before (the generator repeats none); when it has
    no fileName property, the fileName is the name of the input file. *)
Theorem extraction_success (file : File) (r : GenerateContentResult)
    (w w' : World) (doc : Object) :
  fresh_uuids →
  extractPdfMetadata file r w = (Returns doc, w') →
  ∃ data,
    Spec.payload r = Some data ∧
    (∀ k, k ≠ "id" → k ≠ "fileName" → doc !! k = own_properties data !! k) ∧
    doc !! "content" = own_properties data !! "content" ∧
    doc !! "summary" = own_properties data !! "summary" ∧
    (own_properties data !! "id" = None →
       doc !! "id" = Some (JString (crypto_randomUUID (uuids w))) ∧
       ∀ n, n < uuids w → crypto_randomUUID n ≠ crypto_randomUUID (uuids w)) ∧
    (own_properties data !! "fileName" = None →
       doc !! "fileName" = Some (JString (name file))) ∧
    uuids w' = S (uuids w).
Proof.
  intros Hfresh. rewrite extractPdfMetadata_unfold.
  destruct r as [msg|text]; simpl; [done|].
  destruct (JSON_parse (or_else text "{}")) as [data|] eqn:Hparse; [|done].
  intros [= <- <-]. exists data. unfold Spec.record.
  assert (Hcarried : ∀ k, k ≠ "id" → k ≠ "fileName" →
            (own_properties data ∪
             {[ "id" := JString (crypto_randomUUID (uuids w));
                "fileName" := JString (name file) ]}) !! k
            = own_properties data !! k).
  { intros k Hid Hname. destruct (own_properties data !! k) eqn:Hk.
    - by apply lookup_union_Some_l.
    - rewrite lookup_union_r by done.
      rewrite lookup_insert_ne by done. by rewrite lookup_singleton_ne. }
  split; [done|]. split; [done|]. split; [by apply Hcarried|].
  split; [by apply Hcarried|]. split; [|split].
  - intros Hid. split; [by rewrite lookup_union_r|].
    intros n Hn Heq. apply Hfresh in Heq. lia.
  - intros Hname. by rewrite lookup_union_r.
  - done.
Qed.

End Extractor.

(** C3, as stated, fails: an empty object is not of the contract shape,
    yet the extraction of a response with that text succeeds. *)
Lemma empty_object_is_extracted :
  ∃ data,
    JSON_parse "{}" = Some data ∧
    ¬ Spec.contract_shape data ∧
    is_Some (returned (Gemini.extractPdfMetadata Reference.letter_pdf
                         (Gemini.Response (Some "{}")) Reference.empty_world).1).
Proof.
  exists (JObject ∅). split; [done|]. split; [|by eexists].
  intros (props & [= <-] & Hrequired).
  apply Forall_cons in Hrequired as [[s Hs] _]. done.
Qed.

(** C1, as stated, fails: a response without text yields a record with
    neither content nor summary, and the upload puts it into the corpus. *)
Lemma record_without_content :
  ∃ doc w',
    Gemini.extractPdfMetadata Reference.letter_pdf (Gemini.Response None)
      Reference.empty_world = (Returns doc, w') ∧
    doc !! "content" = None ∧
    ¬ Spec.validated doc ∧
    App.documents (App.state (App.now
      (App.handleFileUpload [(Reference.letter_pdf, Gemini.Response None)]
         (App.start Reference.fresh_machine)).2)) = [doc].
Proof.
  eexists _, _. split; [reflexivity|]. split; [done|]. split; [|reflexivity].
  intros (content & summary & Hcontent & _). done.
Qed.

(** ** The Batch Extraction Controller *)

Section Batch.
Context `{Platform}.
Import Gemini App.

Lemma for_loop_cons i file r rest newDocs t :
  for_loop i ((file, r) :: rest) newDocs t =
  let t1 := step (λ m, {| state := state m;
                          world := (extractPdfMetadata file r (world (now t))).2 |}) t in
  match Spec.payload r with
  | Some data =>
      for_loop (S i) rest (newDocs ++ [Spec.record file data (uuids (world (now t)))])
        (setUploadProgress (λ prev, {| current := i + 1; total := total prev |}) t1).2
  | None =>
      for_loop (S i) rest newDocs
        (await (console_error ("Error processing " +:+ name file +:+ ":")
                  (match r with
                   | Rejects msg => ServiceError msg
                   | Response _ => Error "Failed to process document"
                   end)) t1).2
  end.
Proof.
  cbn [for_loop]. unfold mbind, M_mbind, M_bind, M_try_catch, await at 1.
  rewrite (surjective_pairing (extractPdfMetadata file r (world (now t)))).
  rewrite extractPdfMetadata_payload.
  destruct (Spec.payload r) as [data|]; simpl; reflexivity.
Qed.

Lemma extractPdfMetadata_uuids file r w :
  uuids (extractPdfMetadata file r w).2 =
  match Spec.payload r with Some _ => S (uuids w) | None => uuids w end.
Proof.
  rewrite extractPdfMetadata_unfold. destruct r as [msg|text]; simpl; [done|].
  by destruct (JSON_parse (or_else text "{}")).
Qed.

Lemma extractPdfMetadata_requests file r w :
  requests (extractPdfMetadata file r w).2 = requests w ++ [ExtractionRequest file required].
Proof.
  rewrite extractPdfMetadata_unfold. destruct r as [msg|text]; simpl; [done|].
  by destruct (JSON_parse (or_else text "{}")).
Qed.

(** What one run of the loop does: it returns the successes, attempts every
    file, and leaves the corpus alone all the way. *)
Lemma for_loop_spec files : ∀ i newDocs t,
  let n := uuids (world (now t)) in
  let run := for_loop i files newDocs t in
  run.1 = Returns (newDocs ++ Spec.extracted files n) ∧
  (∃ news, visited run.2 = visited t ++ news ∧
     Forall (λ m', documents (state m') = documents (state (now t)) ∧
                   chatMessages (state m') = chatMessages (state (now t))) news) ∧
  documents (state (now run.2)) = documents (state (now t)) ∧
  chatMessages (state (now run.2)) = chatMessages (state (now t)) ∧
  uuids (world (now run.2)) = n + length (Spec.extracted files n) ∧
  requests (world (now run.2))
  = requests (world (now t)) ++ map (λ fr, ExtractionRequest fr.1 required) files.
Proof.
  induction files as [|[file r] rest IH]; intros i newDocs t; cbn zeta.
  - simpl. rewrite !app_nil_r. split; [done|].
    split; [|by rewrite Nat.add_0_r]. exists []. by rewrite app_nil_r.
  - rewrite for_loop_cons. cbn zeta. cbn [Spec.extracted].
    pose proof (extractPdfMetadata_uuids file r (world (now t))) as Huuids.
    pose proof (extractPdfMetadata_requests file r (world (now t))) as Hrequests.
    destruct (Spec.payload r) as [data|] eqn:Hpayload.
    + match goal with |- context [for_loop (S i) rest ?nd ?t1] =>
        destruct (IH (S i) nd t1) as (Hout & (news & Hvisited & Hnews) & Hd & Hc & Hu & Hr)
      end.
      cbn [setUploadProgress setState step now past state world snd] in *.
      rewrite Huuids in *. rewrite Hrequests in *.
      split; [by rewrite Hout, <- app_assoc|]. split; [|split; [done|split; [done|split]]].
      * eexists (_ :: _ :: news). split.
        -- rewrite Hvisited. unfold visited. simpl. rewrite <- !app_assoc. reflexivity.
        -- repeat (apply Forall_cons; split; [done|]). exact Hnews.
      * rewrite Hu. simpl. lia.
      * rewrite Hr. simpl. by rewrite <- app_assoc.
    + match goal with |- context [for_loop (S i) rest ?nd ?t1] =>
        destruct (IH (S i) nd t1) as (Hout & (news & Hvisited & Hnews) & Hd & Hc & Hu & Hr)
      end.
      cbn [await console_error step now past state world snd fst uuids requests] in *.
      rewrite Huuids in *. rewrite Hrequests in *.
      split; [done|]. split; [|split; [done|split; [done|split]]].
      * eexists (_ :: _ :: news). split.
        -- rewrite Hvisited. unfold visited. simpl. rewrite <- !app_assoc. reflexivity.
        -- repeat (apply Forall_cons; split; [done|]). exact Hnews.
      * done.
      * rewrite Hr. simpl. by rewrite <- app_assoc.
Qed.

Lemma handleFileUpload_nil (t : Timeline) : handleFileUpload [] t = (Returns tt, t).
Proof. reflexivity. Qed.

Lemma visited_step f t : visited (step f t) = visited t ++ [f (now t)].
Proof. unfold visited. simpl. by rewrite <- app_assoc. Qed.

Lemma handleFileUpload_spec files m :
  files ≠ [] →
  let run := handleFileUpload files (start m) in
  let newDocs := Spec.extracted files (uuids (world m)) in
  run.1 = Returns tt ∧
  ∃ during m_docs,
    visited run.2 = m :: during ++ [m_docs; now run.2] ∧
    Forall (λ m', documents (state m') = documents (state m) ∧
                  chatMessages (state m') = chatMessages (state m)) during ∧
    documents (state m_docs) = documents (state m) ++ newDocs ∧
    world m_docs = world (now run.2) ∧
    documents (state (now run.2)) = documents (state m) ++ newDocs ∧
    chatMessages (state (now run.2)) = chatMessages (state m) ∧
    uuids (world (now run.2)) = uuids (world m) + length newDocs ∧
    requests (world (now run.2))
    = requests (world m) ++ map (λ fr, ExtractionRequest fr.1 required) files.
Proof.
  intros Hfiles. cbn zeta. unfold handleFileUpload.
  destruct (decide (files = [])) as [?|_]; [done|].
  unfold mbind, M_mbind, M_bind.
  cbn [setIsProcessing setUploadProgress setActiveTab setState].
  match goal with |- context [for_loop 0 files [] ?t] => set (t3 := t) end.
  assert (∃ before, visited t3 = m :: before ∧
            Forall (λ m', documents (state m') = documents (state m) ∧
                          chatMessages (state m') = chatMessages (state m)) before)
    as (before & Hbefore & Hframe).
  { eexists [_; _; _]. split; [reflexivity|].
    repeat (apply Forall_cons; split; [done|]). by apply Forall_nil. }
  assert (documents (state (now t3)) = documents (state m)) as Hd3 by done.
  assert (chatMessages (state (now t3)) = chatMessages (state m)) as Hc3 by done.
  assert (world (now t3) = world m) as Hw3 by done.
  clearbody t3.
  destruct (for_loop_spec files 0 [] t3)
    as (Hout & (news & Hvisited & Hnews) & Hd & Hc & Hu & Hr).
  destruct (for_loop 0 files [] t3) as [out t4].
  cbn [fst snd] in *. subst out.
  cbn [setDocuments setIsProcessing setState fst snd]. split; [done|].
  rewrite !visited_step, Hvisited, Hbefore.
  rewrite Hd3, Hc3 in *. rewrite Hw3 in *.
  cbn [step now past state world documents chatMessages app] in *.
  exists (before ++ news). eexists. split; [|split; [|split; [|split; [|split; [|split]]]]].
  - rewrite <- !app_assoc. reflexivity.
  - apply Forall_app. split; [done|]. exact Hnews.
  - by rewrite Hd.
  - reflexivity.
  - by rewrite Hd.
  - done.
  - done.
Qed.

Lemma extracted_successes files : ∀ n,
  Forall2 (λ doc fr, ∃ w, n ≤ uuids w ∧ (extractPdfMetadata fr.1 fr.2 w).1 = Returns doc)
          (Spec.extracted files n) (filter Spec.succeeds files).
Proof.
  induction files as [|[file r] rest IH]; intros n; [constructor|].
  cbn [Spec.extracted]. rewrite filter_cons.
  destruct (Spec.payload r) as [data|] eqn:Hpayload.
  - rewrite decide_True by (unfold Spec.succeeds; simpl; rewrite Hpayload; eauto).
    constructor.
    + exists {| uuids := n; requests := []; console := []; downloads := [] |}.
      split; [done|]. rewrite extractPdfMetadata_payload. cbn [fst snd].
      by rewrite Hpayload.
    + eapply Forall2_impl; [apply IH|]. intros doc fr (w & Hw & Hdoc).
      exists w. split; [simpl in Hw; lia|done].
  - rewrite decide_False
      by (unfold Spec.succeeds; simpl; rewrite Hpayload; by intros [? ?]).
    apply IH.
Qed.

Lemma succeeds_spec (fr : File * GenerateContentResult) (w : World) :
  Spec.succeeds fr ↔ is_Some (returned (extractPdfMetadata fr.1 fr.2 w).1).
Proof.
  unfold Spec.succeeds. rewrite extractPdfMetadata_payload.
  destruct (Spec.payload fr.2); simpl; split; eauto; by intros [? ?].
Qed.

Lemma filter_all {A} (P : A → Prop) `{∀ x, Decision (P x)} (l : list A) :
  length (filter P l) = length l ↔ Forall P l.
Proof.
  induction l as [|x l IH]; [done|]. rewrite filter_cons.
  destruct (decide (P x)) as [HP|HP]; simpl.
  - rewrite Forall_cons. split.
    + intros [= Hlen]. split; [done|]. by apply IH.
    + intros [_ Hl]. f_equal. by apply IH.
  - split.
    + intros Hlen. pose proof (length_filter P l). lia.
    + intros [? ?]%Forall_cons. done.
Qed.

(** C4. For every batch, the handler completes normally whatever fails;
    every file is attempted, in order; the corpus grows by exactly the
    documents that the successful extractions returned, in input order
    (an extraction succeeds when it returns a record); so at most as many
    documents as files are added, and as many only when every extraction
    succeeded. *)
Theorem batch_isolates_failures
    (files : list (File * GenerateContentResult)) (m : Machine) :
  let run := handleFileUpload files (start m) in
  let newDocs := Spec.extracted files (uuids (world m)) in
  run.1 = Returns tt ∧
  requests (world (now run.2))
  = requests (world m) ++ map (λ fr, ExtractionRequest fr.1 required) files ∧
  documents (state (now run.2)) = documents (state m) ++ newDocs ∧
  Forall2 (λ doc fr, ∃ w, uuids (world m) ≤ uuids w ∧
                          (extractPdfMetadata fr.1 fr.2 w).1 = Returns doc)
          newDocs (filter Spec.succeeds files) ∧
  (∀ fr w, Spec.succeeds fr ↔ is_Some (returned (extractPdfMetadata fr.1 fr.2 w).1)) ∧
  length newDocs ≤ length files ∧
  (length newDocs = length files ↔ Forall Spec.succeeds files).
Proof.
  cbn zeta.
  pose proof (extracted_successes files (uuids (world m))) as Hsuccesses.
  pose proof (Forall2_length _ _ _ Hsuccesses) as Hlength.
  set (run := handleFileUpload files (start m)).
  assert (run.1 = Returns tt ∧
          requests (world (now run.2))
          = requests (world m) ++ map (λ fr, ExtractionRequest fr.1 required) files ∧
          documents (state (now run.2))
          = documents (state m) ++ Spec.extracted files (uuids (world m)))
    as (Hout & Hrequests & Hdocuments).
  { destruct (decide (files = [])) as [->|Hfiles].
    - simpl. by rewrite !app_nil_r.
    - destruct (handleFileUpload_spec files m Hfiles)
        as (Hout & during & m_docs & _ & _ & _ & _ & Hd & _ & _ & Hr).
      done. }
  split; [done|]. split; [done|]. split; [done|]. split; [done|].
  split; [apply succeeds_spec|].
  rewrite Hlength. split; [apply length_filter|apply filter_all].
Qed.

(** C10. During a batch upload the corpus stays as it was in every state
    up to the last attempt; the successes are then appended in one update,
    after the documents already there, which keep their order, and in
    input order among themselves; every state that has the new corpus
    comes after all the requests of the batch. *)
Theorem corpus_appended_once
    (files : list (File * GenerateContentResult)) (m : Machine) :
  let run := handleFileUpload files (start m) in
  let newDocs := Spec.extracted files (uuids (world m)) in
  ∃ during after,
    visited run.2 = m :: during ++ after ∧
    Forall (λ m', documents (state m') = documents (state m)) during ∧
    Forall (λ m', documents (state m') = documents (state m) ++ newDocs ∧
                  requests (world m')
                  = requests (world m) ++ map (λ fr, ExtractionRequest fr.1 required) files)
           after ∧
    length after = (if decide (files = []) then 0 else 2) ∧
    documents (state (now run.2)) = documents (state m) ++ newDocs.
Proof.
  cbn zeta. destruct (decide (files = [])) as [->|Hfiles].
  - exists [], []. simpl. by rewrite app_nil_r.
  - destruct (handleFileUpload_spec files m Hfiles)
      as (_ & during & m_docs & Hvisited & Hduring & Hdocs & Hworld & Hd & _ & _ & Hr).
    exists during, [m_docs; now (handleFileUpload files (start m)).2].
    split; [done|]. split; [|split; [|done]].
    + eapply Forall_impl; [exact Hduring|]. by intros m' [? _].
    + repeat (apply Forall_cons; split); [| |by apply Forall_nil].
      * by rewrite Hworld.
      * done.
Qed.

End Batch.

(** C2, on the code: a batch of one file whose request the service rejects.
    The attempt completes, the handler completes, and the counter still
    reads 0 of 1: it is set only after a successful extraction. *)
Lemma progress_skips_failed_attempt :
  let run := App.handleFileUpload [(Reference.letter_pdf, Gemini.Rejects "503")]
               (App.start Reference.fresh_machine) in
  run.1 = Returns tt ∧
  length (Gemini.requests (App.world (App.now run.2))) = 1 ∧
  App.isProcessing (App.state (App.now run.2)) = false ∧
  App.uploadProgress (App.state (App.now run.2))
  = {| App.current := 0; App.total := 1 |} ∧
  map (λ m, App.uploadProgress (App.state m)) (App.visited run.2)
  = [ {| App.current := 0; App.total := 0 |}; {| App.current := 0; App.total := 0 |};
      {| App.current := 0; App.total := 1 |}; {| App.current := 0; App.total := 1 |};
      {| App.current := 0; App.total := 1 |}; {| App.current := 0; App.total := 1 |};
      {| App.current := 0; App.total := 1 |}; {| App.current := 0; App.total := 1 |} ].
Proof. cbn zeta. repeat split; reflexivity. Qed.

(** ** The corpus *)

Section Corpus.
Context `{Platform}.
Import Gemini App.

Lemma strict_eq_string_spec (v : Value) (s : string) :
  strict_eq_string v s = true ↔ v = JString s.
Proof.
  destruct v; simpl; try (split; [done|by intros [=]]).
  rewrite bool_decide_eq_true. split; [by intros ->|by intros [= ->]].
Qed.

Lemma deleteDocument_documents id m :
  documents (state (Spec.perform (Spec.Delete id) m))
  = List.filter (Spec.kept id) (documents (state m)).
Proof. reflexivity. Qed.

Lemma delete_absent id docs :
  JString id ∉ Spec.ids docs → List.filter (Spec.kept id) docs = docs.
Proof.
  induction docs as [|d docs IH]; [done|]. simpl. intros Hid.
  apply not_elem_of_cons in Hid as [Hd Hdocs]. unfold Spec.kept at 1.
  destruct (strict_eq_string (Get d "id") id) eqn:Heq.
  - apply strict_eq_string_spec in Heq. congruence.
  - simpl. f_equal. by apply IH.
Qed.

Lemma delete_present id docs :
  NoDup (Spec.ids docs) → JString id ∈ Spec.ids docs →
  ∃ l1 d l2, docs = l1 ++ d :: l2 ∧ Get d "id" = JString id ∧
             List.filter (Spec.kept id) docs = l1 ++ l2.
Proof.
  induction docs as [|d docs IH]; [by intros _ ?%elem_of_nil|].
  simpl. intros [Hd Hdocs]%NoDup_cons Hid. unfold Spec.kept at 1.
  destruct (strict_eq_string (Get d "id") id) eqn:Heq; simpl.
  - apply strict_eq_string_spec in Heq. exists [], d, docs.
    split; [done|]. split; [done|]. apply delete_absent. by rewrite <- Heq.
  - apply elem_of_cons in Hid as [Hid|Hid].
    + symmetry in Hid. apply strict_eq_string_spec in Hid. congruence.
    + destruct (IH Hdocs Hid) as (l1 & d' & l2 & -> & Hd' & Hfilter).
      exists (d :: l1), d', l2. by rewrite Hfilter.
Qed.

Lemma filter_ids_sublist id docs :
  sublist (Spec.ids (List.filter (Spec.kept id) docs)) (Spec.ids docs).
Proof.
  induction docs as [|d docs IH]; [done|]. simpl.
  destruct (Spec.kept id d); simpl; by constructor.
Qed.

Lemma record_id file data n :
  own_properties data !! "id" = None →
  Get (Spec.record file data n) "id" = JString (crypto_randomUUID n).
Proof.
  intros Hid. unfold Get, Spec.record. by rewrite lookup_union_r.
Qed.

Lemma extracted_ids files : ∀ n,
  Forall (λ fr, Spec.plain fr.2) files →
  Spec.ids (Spec.extracted files n)
  = (λ k, JString (crypto_randomUUID k)) <$> seq n (length (Spec.extracted files n)).
Proof.
  induction files as [|[file r] rest IH]; intros n; [done|].
  intros [Hplain Hrest]%Forall_cons. cbn [Spec.extracted].
  destruct (Spec.payload r) as [data|] eqn:Hpayload; [|by apply IH].
  pose proof (Hplain data Hpayload) as Hid. simpl.
  by rewrite record_id, IH.
Qed.

Lemma perform_unique_ids a m :
  fresh_uuids → Spec.plain_action a → Spec.unique_ids m → Spec.unique_ids (Spec.perform a m).
Proof.
  intros Hfresh Ha [Hnodup Hdrawn]. destruct a as [files|id].
  - destruct (decide (files = [])) as [->|Hfiles]; [done|].
    destruct (handleFileUpload_spec files m Hfiles)
      as (_ & _ & _ & _ & _ & _ & _ & Hd & _ & Hu & _).
    unfold Spec.unique_ids, Spec.drawn. cbn [Spec.perform]. rewrite Hd, Hu.
    unfold Spec.ids at 1 2. rewrite !map_app. fold (Spec.ids (documents (state m))).
    fold (Spec.ids (Spec.extracted files (uuids (world m)))).
    rewrite (extracted_ids files _ Ha).
    set (n := uuids (world m)). set (len := length (Spec.extracted files n)).
    split.
    + apply NoDup_app. split; [done|]. split.
      * intros id Hold Hnew. unfold Spec.drawn in Hdrawn.
        rewrite Forall_forall in Hdrawn. destruct (Hdrawn id Hold) as (j & Hj & ->).
        apply list_elem_of_fmap in Hnew as (k & [= Hk] & Hseq).
        apply elem_of_seq in Hseq. apply Hfresh in Hk. fold n in Hj. lia.
      * apply NoDup_fmap_2; [|apply NoDup_seq]. intros j k [= Hjk]. by apply Hfresh.
    + apply Forall_app. split.
      * eapply Forall_impl; [exact Hdrawn|]. intros id (j & Hj & ->).
        exists j. split; [fold n in Hj; lia|done].
      * apply Forall_fmap, Forall_forall. intros k Hk. apply elem_of_seq in Hk.
        exists k. split; [lia|done].
  - split.
    + rewrite deleteDocument_documents.
      eapply sublist_NoDup; [done|apply filter_ids_sublist].
    + unfold Spec.drawn. rewrite deleteDocument_documents.
      apply Forall_forall. intros v Hv.
      eapply elem_of_sublist in Hv; [|apply filter_ids_sublist].
      unfold Spec.drawn in Hdrawn. rewrite Forall_forall in Hdrawn. by apply Hdrawn.
Qed.

Lemma run_unique_ids actions : ∀ m,
  fresh_uuids → Forall Spec.plain_action actions → Spec.unique_ids m →
  Spec.unique_ids (Spec.run actions m).
Proof.
  induction actions as [|a actions IH]; intros m Hfresh Hplain Hm; [done|].
  apply Forall_cons in Hplain as [Ha Hactions]. simpl.
  apply IH; [done|done|]. by apply perform_unique_ids.
Qed.

(** C8, as amended.  On a corpus whose ids are pairwise distinct, deleting
    by an id removes exactly the one document with that id, keeping the
    others in order, when there is one; on any corpus it changes nothing
    when there is none.  Start from a corpus whose ids are pairwise
    distinct identifiers drawn from the generator (the empty corpus is
    one), let the generator repeat no identifier, and perform any sequence
    of batch uploads and deletions in which no payload names the id itself:
    then no two documents of the corpus share an id. *)
Theorem corpus_ids_stay_unique :
  (∀ (m : Machine) (id : string),
     let corpus := documents (state m) in
     let after := documents (state (Spec.perform (Spec.Delete id) m)) in
     (NoDup (Spec.ids corpus) → JString id ∈ Spec.ids corpus →
        ∃ l1 d l2, corpus = l1 ++ d :: l2 ∧ Get d "id" = JString id ∧ after = l1 ++ l2) ∧
     (JString id ∉ Spec.ids corpus → after = corpus)) ∧
  (∀ (actions : list Spec.Action) (m : Machine),
     fresh_uuids →
     Forall Spec.plain_action actions →
     NoDup (Spec.ids (documents (state m))) →
     Spec.drawn m →
     NoDup (Spec.ids (documents (state (Spec.run actions m))))).
Proof.
  split.
  - intros m id. cbn zeta. rewrite deleteDocument_documents. split.
    + apply delete_present.
    + apply delete_absent.
  - intros actions m Hfresh Hplain Hnodup Hdrawn.
    by destruct (run_unique_ids actions m Hfresh Hplain (conj Hnodup Hdrawn)).
Qed.

End Corpus.

(** C8, as stated, fails: two uploads whose payloads name the same id put
    two documents with that id into the corpus, and deleting by it removes
    both. *)
Lemma payload_ids_collide :
  let m :=
    Spec.run
      [Spec.Upload [(Reference.letter_pdf, Gemini.Response (Some Reference.id_json));
                    (Reference.memo_pdf, Gemini.Response (Some Reference.id_json))]]
      Reference.fresh_machine in
  Spec.ids (App.documents (App.state m)) = [JString "x"; JString "x"] ∧
  ¬ NoDup (Spec.ids (App.documents (App.state m))) ∧
  length (App.documents (App.state m)) = 2 ∧
  length (App.documents (App.state (Spec.perform (Spec.Delete "x") m))) = 0.
Proof.
  cbn zeta.
  assert (Hids : ∀ ids : list (JSValue Z), ids = [JString "x"; JString "x"] → ¬ NoDup ids).
  { intros ids -> Hnodup. apply NoDup_cons in Hnodup as [Hx _]. set_solver. }
  split; [reflexivity|]. split; [by apply Hids|]. split; reflexivity.
Qed.

(** ** The theorems at work on the reference platform *)

(** The identifiers of the reference platform are pairwise distinct. *)
Lemma Reference_fresh : fresh_uuids (H := Reference.platform).
Proof.
  intros i j Hij. simpl in Hij.
  apply (inj (String.append "uuid-")) in Hij. by apply (inj pretty) in Hij.
Qed.

(** C1 at work: the extraction of the letter, answered with a conforming
    payload, returns a record with the first identifier, the name of the
    file and the sender of the payload. *)
Lemma extraction_success_witness :
  ∃ doc w',
    fresh_uuids ∧
    Gemini.extractPdfMetadata Reference.letter_pdf
      (Gemini.Response (Some Reference.letter_json)) Reference.empty_world
    = (Returns doc, w') ∧
    doc !! "id" = Some (JString "uuid-0") ∧
    doc !! "fileName" = Some (JString "letter.pdf") ∧
    doc !! "sender" = Some (JString "Jane") ∧
    Gemini.uuids w' = 1.
Proof.
  eexists _, _. split; [exact Reference_fresh|]. split; [reflexivity|].
  destruct (extraction_success Reference.letter_pdf
              (Gemini.Response (Some Reference.letter_json))
              Reference.empty_world _ _ Reference_fresh eq_refl)
    as (data & Hpayload & Hcarried & _ & _ & Hid & Hname & Huuids).
  assert (∃ parsed, Spec.payload (Gemini.Response (Some Reference.letter_json)) = Some parsed ∧
                    own_properties parsed !! "id" = None ∧
                    own_properties parsed !! "fileName" = None ∧
                    own_properties parsed !! "sender" = Some (JString "Jane"))
    as (parsed & Hparsed & Hno_id & Hno_name & Hsender).
  { eexists. split; [reflexivity|]. repeat split; reflexivity. }
  rewrite Hparsed in Hpayload. injection Hpayload as <-.
  split; [exact (proj1 (Hid Hno_id))|]. split; [exact (Hname Hno_name)|].
  split; [|exact Huuids].
  rewrite <- Hsender. by apply Hcarried.
Defined.

(** C7 at work: a question about the letter whose request is rejected
    leaves the question as the only turn of the history. *)
Lemma failed_query_witness :
  let run := App.handleSendMessage (Gemini.Rejects "503") 10 20 (App.start Reference.asking) in
  String_trim (App.query (App.state Reference.asking)) ≠ "" ∧
  App.isChatLoading (App.state Reference.asking) = false ∧
  run.1 = Returns tt ∧
  App.chatMessages (App.state (App.now run.2))
  = [{| Types.role := Types.user; Types.text := "What did Jane say?";
        Types.timestamp := 10 |}] ∧
  App.documents (App.state (App.now run.2)) = [Types.to_object Reference.letter].
Proof.
  cbn zeta.
  assert (Hquery : String_trim (App.query (App.state Reference.asking)) ≠ "") by done.
  split; [exact Hquery|]. split; [reflexivity|].
  destruct (failed_query_leaves_no_assistant_turn Reference.asking "503" 10 20
              Hquery eq_refl) as (Hout & Hchat & Hdocs & _).
  split; [exact Hout|]. split; [exact Hchat|exact Hdocs].
Defined.

(** C8 at work: a batch of three files of which two are extracted leaves
    two documents with distinct ids, and deleting the first record leaves
    the second. *)
Lemma corpus_ids_stay_unique_witness :
  let actions :=
    [Spec.Upload [(Reference.letter_pdf, Gemini.Response (Some Reference.letter_json));
                  (Reference.memo_pdf, Gemini.Rejects "503");
                  (Reference.memo_pdf, Gemini.Response None)]] in
  let m := Spec.run actions Reference.fresh_machine in
  fresh_uuids ∧
  Forall Spec.plain_action actions ∧
  NoDup (Spec.ids (App.documents (App.state Reference.fresh_machine))) ∧
  Spec.drawn Reference.fresh_machine ∧
  Spec.ids (App.documents (App.state m)) = [JString "uuid-0"; JString "uuid-1"] ∧
  NoDup (Spec.ids (App.documents (App.state m))) ∧
  JString "uuid-0" ∈ Spec.ids (App.documents (App.state m)) ∧
  Spec.ids (App.documents (App.state (Spec.perform (Spec.Delete "uuid-0") m)))
  = [JString "uuid-1"] ∧
  ∃ l1 d l2, App.documents (App.state m) = l1 ++ d :: l2 ∧
             Get d "id" = JString "uuid-0" ∧
             App.documents (App.state (Spec.perform (Spec.Delete "uuid-0") m)) = l1 ++ l2.
Proof.
  cbn zeta.
  assert (Hplain : ∀ text parsed,
            Spec.payload (Gemini.Response text) = Some parsed →
            own_properties parsed !! "id" = None →
            Spec.plain (Gemini.Response text)).
  { intros text parsed Hparsed Hid data Hdata.
    rewrite Hparsed in Hdata. by injection Hdata as <-. }
  assert (Hactions : Forall Spec.plain_action
            [Spec.Upload [(Reference.letter_pdf, Gemini.Response (Some Reference.letter_json));
                          (Reference.memo_pdf, Gemini.Rejects "503");
                          (Reference.memo_pdf, Gemini.Response None)]]).
  { apply Forall_cons_2; [|apply Forall_nil_2].
    apply Forall_cons_2; [eapply Hplain; reflexivity|].
    apply Forall_cons_2; [by intros data|].
    apply Forall_cons_2; [eapply Hplain; reflexivity|apply Forall_nil_2]. }
  pose proof (proj2 corpus_ids_stay_unique _ Reference.fresh_machine
                Reference_fresh Hactions (NoDup_nil_2) (Forall_nil_2 _)) as Hunique.
  assert (Hin : JString "uuid-0" ∈ Spec.ids (App.documents (App.state (Spec.run
            [Spec.Upload [(Reference.letter_pdf, Gemini.Response (Some Reference.letter_json));
                          (Reference.memo_pdf, Gemini.Rejects "503");
                          (Reference.memo_pdf, Gemini.Response None)]]
            Reference.fresh_machine)))) by apply list_elem_of_here.
  split; [exact Reference_fresh|]. split; [exact Hactions|].
  split; [apply NoDup_nil_2|]. split; [apply Forall_nil_2|]. split; [reflexivity|].
  split; [exact Hunique|]. split; [exact Hin|]. split; [reflexivity|].
  exact (proj1 (proj1 corpus_ids_stay_unique _ "uuid-0") Hunique Hin).
Defined.

(** * Further properties of the code *)

(** ** The extractor's effects and the shape of its records *)

Section Extractor_effects.
Context `{Platform}.
Import Gemini App.

(** X1. One extraction sends exactly one request, whatever comes of it;
    it draws an identifier only when it succeeds; it writes to the console
    when the response does not parse, and not when the service rejects the
    request; it starts no download. *)
Theorem extraction_effects (file : File) (r : GenerateContentResult) (w : World) :
  let w' := (extractPdfMetadata file r w).2 in
  requests w' = requests w ++ [ExtractionRequest file required] ∧
  uuids w' = match Spec.payload r with Some _ => S (uuids w) | None => uuids w end ∧
  console w' = console w ++
    match r with
    | Rejects _ => []
    | Response _ =>
        match Spec.payload r with
        | Some _ => []
        | None => [("Failed to parse Gemini response", SyntaxError)]
        end
    end ∧
  downloads w' = downloads w.
Proof.
  cbn zeta. rewrite extractPdfMetadata_unfold.
  destruct r as [msg|text]; simpl; [by rewrite app_nil_r|].
  destruct (JSON_parse (or_else text "{}")); simpl; by rewrite ?app_nil_r.
Qed.

(** X2. A record that the extractor returns has the properties of the
    payload and, besides, an id and a fileName, whatever the payload: a
    payload without properties of its own (null, a number, a boolean, an
    empty object) gives a record of exactly the fresh id and the name of
    the file. *)
Theorem record_properties (file : File) (r : GenerateContentResult)
    (w w' : World) (doc : Object) :
  extractPdfMetadata file r w = (Returns doc, w') →
  ∃ data,
    Spec.payload r = Some data ∧
    dom doc = dom (own_properties data) ∪ {[ "id"; "fileName" ]} ∧
    is_Some (doc !! "id") ∧ is_Some (doc !! "fileName") ∧
    (own_properties data = ∅ →
       doc = {[ "id" := JString (crypto_randomUUID (uuids w));
                "fileName" := JString (name file) ]}).
Proof.
  rewrite extractPdfMetadata_unfold.
  destruct r as [msg|text]; simpl; [done|].
  destruct (JSON_parse (or_else text "{}")) as [data|]; [|done].
  intros [= <- <-]. exists data. unfold Spec.record. split; [done|].
  assert (Hdom : dom (own_properties data ∪
                      {[ "id" := JString (crypto_randomUUID (uuids w));
                         "fileName" := JString (name file) ]})
                 = dom (own_properties data) ∪ {[ "id"; "fileName" ]}).
  { rewrite dom_union_L, dom_insert_L, dom_singleton_L. done. }
  split; [done|]. split; [|split].
  - apply elem_of_dom. rewrite Hdom. clear. set_solver.
  - apply elem_of_dom. rewrite Hdom. clear. set_solver.
  - intros ->. by rewrite (left_id_L ∅ (∪)).
Qed.

End Extractor_effects.

(** X2 at work: a response without text is read as the empty object, and
    the record is the identifier and the file name and nothing else. *)
Lemma record_properties_witness :
  ∃ doc w',
    Gemini.extractPdfMetadata Reference.letter_pdf (Gemini.Response None)
      Reference.empty_world = (Returns doc, w') ∧
    doc = {[ "id" := JString "uuid-0"; "fileName" := JString "letter.pdf" ]}.
Proof.
  eexists _, _. split; [reflexivity|].
  edestruct (record_properties Reference.letter_pdf (Gemini.Response None)
               Reference.empty_world) as (data & Hpayload & _ & _ & _ & Hbare);
    [reflexivity|].
  injection Hpayload as <-. exact (Hbare eq_refl).
Defined.

(** ** The batch handler's progress, flags and log *)

Section Batch_effects.
Context `{Platform}.
Import Gemini App.

Lemma last_success_ge files : ∀ i c, c ≤ i → c ≤ Spec.last_success i files c.
Proof.
  induction files as [|[file r] rest IH]; intros i c Hc; [done|]. simpl.
  destruct (Spec.payload r).
  - etrans; [|apply IH; lia]. lia.
  - apply IH. lia.
Qed.

Lemma last_success_le files : ∀ i c, c ≤ i → Spec.last_success i files c ≤ i + length files.
Proof.
  induction files as [|[file r] rest IH]; intros i c Hc; simpl; [lia|].
  destruct (Spec.payload r).
  - etrans; [apply IH; lia|]. lia.
  - etrans; [apply IH; lia|]. lia.
Qed.

Lemma same_but_current_refl s : Spec.same_but_current s s.
Proof. by repeat split. Qed.

Lemma extractPdfMetadata_console file r w :
  console (extractPdfMetadata file r w).2 = console w ++
    match r with
    | Rejects _ => []
    | Response _ =>
        match Spec.payload r with
        | Some _ => []
        | None => [("Failed to parse Gemini response", SyntaxError)]
        end
    end.
Proof.
  rewrite extractPdfMetadata_unfold. destruct r as [msg|text]; simpl; [by rewrite app_nil_r|].
  destruct (JSON_parse (or_else text "{}")); simpl; by rewrite ?app_nil_r.
Qed.

Lemma extractPdfMetadata_downloads file r w :
  downloads (extractPdfMetadata file r w).2 = downloads w.
Proof.
  rewrite extractPdfMetadata_unfold. destruct r as [msg|text]; simpl; [done|].
  by destruct (JSON_parse (or_else text "{}")).
Qed.

Lemma attempt_log_payload file r :
  Spec.attempt_log (file, r) =
  match Spec.payload r with
  | Some _ => []
  | None =>
      match r with
      | Rejects _ => []
      | Response _ => [("Failed to parse Gemini response", SyntaxError)]
      end ++
      [("Error processing " +:+ name file +:+ ":",
        match r with
        | Rejects msg => ServiceError msg
        | Response _ => Error "Failed to process document"
        end)]
  end.
Proof.
  unfold Spec.attempt_log. destruct r as [msg|text]; simpl; [done|].
  by destruct (JSON_parse (or_else text "{}")).
Qed.

(** The loop only ever moves the reading of the counter, upwards and up to
    its last reading, and logs each failed attempt. *)
Lemma for_loop_effects files : ∀ i newDocs t,
  Spec.reading (now t) ≤ i →
  let run := for_loop i files newDocs t in
  let final := Spec.last_success i files (Spec.reading (now t)) in
  ∃ news,
    visited run.2 = visited t ++ news ∧
    Forall (λ m', Spec.same_but_current (state (now t)) (state m') ∧
                  Spec.reading m' ≤ final) news ∧
    StronglySorted (≤) (Spec.reading (now t) :: (Spec.reading <$> news)) ∧
    Spec.same_but_current (state (now t)) (state (now run.2)) ∧
    Spec.reading (now run.2) = final ∧
    console (world (now run.2))
    = console (world (now t)) ++ concat (Spec.attempt_log <$> files) ∧
    downloads (world (now run.2)) = downloads (world (now t)).
Proof.
  induction files as [|[file r] rest IH]; intros i newDocs t Hc; cbn zeta.
  - exists []. simpl. rewrite !app_nil_r. split; [done|]. split; [done|].
    split; [repeat constructor|]. split; [apply same_but_current_refl|done].
  - rewrite for_loop_cons. cbn zeta. cbn [Spec.last_success].
    rewrite fmap_cons. cbn [concat]. rewrite attempt_log_payload.
    unfold Spec.reading in Hc.
    pose proof (extractPdfMetadata_console file r (world (now t))) as Hconsole.
    pose proof (extractPdfMetadata_downloads file r (world (now t))) as Hdownloads.
    destruct (Spec.payload r) as [data|] eqn:Hpayload.
    + match goal with |- context [for_loop (S i) rest ?nd ?t1] =>
        destruct (IH (S i) nd t1) as
          (news & Hvisited & Hnews & Hsorted & Hsame & Hfinal & Hlog & Hdl);
          [unfold Spec.reading; simpl; lia|]
      end.
      unfold Spec.reading in *.
      cbn [setUploadProgress setState step now past state world snd
           uploadProgress current] in *.
      assert (Hr : match r with
                   | Rejects _ => []
                   | Response _ => @nil (string * Exn)
                   end = []) by (by destruct r).
      rewrite Hr, app_nil_r in Hconsole.
      pose proof (last_success_ge rest (S i) (i + 1) ltac:(lia)) as Hge.
      eexists (_ :: _ :: news). split; [|split; [|split; [|split; [|split; [|split]]]]].
      * rewrite Hvisited. unfold visited. simpl. rewrite <- !app_assoc. reflexivity.
      * apply Forall_cons. split.
        { split; [apply same_but_current_refl|]. simpl. lia. }
        apply Forall_cons. split.
        { split; [by repeat split|]. simpl. lia. }
        eapply Forall_impl; [exact Hnews|]. intros m' [Hm' Hle]. split; [|done].
        destruct Hm' as (? & ? & ? & ? & ? & ? & ? & ?). by repeat split.
      * apply StronglySorted_cons in Hsorted as [Hall Hsorted].
        simpl. apply StronglySorted_cons. split.
        { apply Forall_cons. split; [done|]. apply Forall_cons. split; [lia|].
          eapply Forall_impl; [exact Hall|]. simpl. intros; lia. }
        apply StronglySorted_cons. split.
        { apply Forall_cons. split; [lia|].
          eapply Forall_impl; [exact Hall|]. simpl. intros; lia. }
        apply StronglySorted_cons. by split.
      * destruct Hsame as (? & ? & ? & ? & ? & ? & ? & ?). by repeat split.
      * exact Hfinal.
      * by rewrite Hlog, Hconsole.
      * by rewrite Hdl, Hdownloads.
    + match goal with |- context [for_loop (S i) rest ?nd ?t1] =>
        destruct (IH (S i) nd t1) as
          (news & Hvisited & Hnews & Hsorted & Hsame & Hfinal & Hlog & Hdl);
          [unfold Spec.reading; simpl; lia|]
      end.
      unfold Spec.reading in *.
      cbn [await console_error step now past state world snd fst
           uploadProgress current console downloads] in *.
      pose proof (last_success_ge rest (S i) (current (uploadProgress (state (now t))))
                    ltac:(lia)) as Hge.
      eexists (_ :: _ :: news). split; [|split; [|split; [|split; [|split; [|split]]]]].
      * rewrite Hvisited. unfold visited. simpl. rewrite <- !app_assoc. reflexivity.
      * apply Forall_cons. split.
        { split; [apply same_but_current_refl|]. simpl. lia. }
        apply Forall_cons. split.
        { split; [apply same_but_current_refl|]. simpl. lia. }
        exact Hnews.
      * apply StronglySorted_cons in Hsorted as [Hall Hsorted].
        simpl. apply StronglySorted_cons. split.
        { apply Forall_cons. split; [done|]. by apply Forall_cons. }
        apply StronglySorted_cons. split; [by apply Forall_cons|].
        apply StronglySorted_cons. by split.
      * exact Hsame.
      * exact Hfinal.
      * rewrite Hlog, Hconsole, <- !app_assoc. reflexivity.
      * by rewrite Hdl, Hdownloads.
Qed.


Lemma handleFileUpload_effects files m :
  files ≠ [] →
  let run := handleFileUpload files (start m) in
  let final := Spec.last_success 0 files 0 in
  ∃ m1 counted,
    visited run.2 = m :: m1 :: counted ++ [now run.2] ∧
    uploadProgress (state m1) = uploadProgress (state m) ∧
    Forall (λ m', isProcessing (state m') = true ∧ Spec.chat_untouched m m') (m1 :: counted) ∧
    isProcessing (state (now run.2)) = false ∧
    activeTab (state (now run.2)) = upload ∧
    Spec.chat_untouched m (now run.2) ∧
    Forall (λ m', total (uploadProgress (state m')) = length files ∧
                  Spec.reading m' ≤ final) (counted ++ [now run.2]) ∧
    StronglySorted (≤) (Spec.reading <$> counted ++ [now run.2]) ∧
    uploadProgress (state (now run.2)) = {| current := final; total := length files |} ∧
    console (world (now run.2)) = console (world m) ++ concat (Spec.attempt_log <$> files) ∧
    downloads (world (now run.2)) = downloads (world m).
Proof.
  intros Hfiles. cbn zeta. unfold handleFileUpload.
  destruct (decide (files = [])) as [?|_]; [done|].
  unfold mbind, M_mbind, M_bind.
  cbn [setIsProcessing setUploadProgress setActiveTab setState].
  match goal with |- context [for_loop 0 files [] ?t] => set (t3 := t) end.
  destruct (for_loop_effects files 0 [] t3 ltac:(unfold Spec.reading; simpl; lia))
    as (news & Hvisited & Hnews & Hsorted & Hsame & Hfinal & Hlog & Hdl).
  assert (Hreading : Spec.reading (now t3) = 0) by done.
  rewrite Hreading in *.
  set (final := Spec.last_success 0 files 0) in *.
  destruct Hsame as (Hd & Hp & Hc & Hq & Hl & Ha & Hs & Ht).
  destruct (for_loop_spec files 0 [] t3) as (Hout & _).
  destruct (for_loop 0 files [] t3) as [out t4].
  cbn [fst snd] in *. subst out.
  cbn [setDocuments setIsProcessing setState fst snd].
  rewrite !visited_step, Hvisited.
  assert (Hstate : ∀ m', Spec.same_but_current (state (now t3)) (state m') →
            isProcessing (state m') = true ∧ Spec.chat_untouched m m' ∧
            total (uploadProgress (state m')) = length files).
  { intros m' (? & ? & ? & ? & ? & ? & ? & ?). by repeat split. }
  unfold visited at 1. cbn [t3 step past now app].
  eexists _, (_ :: _ :: news ++ [_]).
  split; [simpl; rewrite <- !app_assoc; reflexivity|].
  split; [reflexivity|].
  assert (Hcounted : Forall (λ m', (isProcessing (state m') = true ∧ Spec.chat_untouched m m') ∧
                                   total (uploadProgress (state m')) = length files ∧
                                   Spec.reading m' ≤ final) news).
  { eapply Forall_impl; [exact Hnews|]. intros m' [Hm' Hle].
    destruct (Hstate m' Hm') as (? & ? & ?). done. }
  assert (Hzero : 0 ≤ final) by lia.
  split; [|split; [|split; [|split; [|split; [|split; [|split; [|split]]]]]]].
  - apply Forall_cons. split; [done|].
    apply Forall_cons. split; [done|]. apply Forall_cons. split; [done|].
    apply Forall_app. split.
    + eapply Forall_impl; [exact Hcounted|]. by intros m' [? _].
    + apply Forall_cons. split; [|by apply Forall_nil].
      cbn [state isProcessing]. rewrite Hp. split; [done|].
      unfold Spec.chat_untouched. cbn [state chatMessages query isChatLoading searchTerm].
      by rewrite Hc, Hq, Hl, Hs.
  - reflexivity.
  - cbn [state now step activeTab]. by rewrite Ha.
  - unfold Spec.chat_untouched. cbn [state now step chatMessages query isChatLoading searchTerm].
    by rewrite Hc, Hq, Hl, Hs.
  - cbn [app]. rewrite <- !app_assoc. apply Forall_cons. split; [done|].
    apply Forall_cons. split; [done|]. apply Forall_app. split.
    + eapply Forall_impl; [exact Hcounted|]. by intros m' [_ ?].
    + unfold Spec.reading in *.
      repeat (apply Forall_cons; split;
              [cbn [state now step uploadProgress]; rewrite Ht, Hfinal; done|]).
      by apply Forall_nil.
  - cbn [app]. rewrite <- !app_assoc, !fmap_cons, !fmap_app.
    apply StronglySorted_cons in Hsorted as [Hall Hsorted].
    apply StronglySorted_cons. split.
    { apply Forall_cons. split; [done|]. apply Forall_app. split; [done|].
      unfold Spec.reading in *.
      repeat (apply Forall_cons; split;
              [cbn [state now step uploadProgress]; rewrite Hfinal; done|]).
      by apply Forall_nil. }
    apply StronglySorted_cons. split.
    { apply Forall_app. split; [done|]. unfold Spec.reading in *.
      repeat (apply Forall_cons; split;
              [cbn [state now step uploadProgress]; rewrite Hfinal; done|]).
      by apply Forall_nil. }
    apply StronglySorted_app_2; [|done|].
    + intros c1 c2 Hc1 Hc2. apply list_elem_of_fmap in Hc1 as (m' & -> & Hm').
      rewrite Forall_forall in Hcounted. destruct (Hcounted m' Hm') as (_ & _ & Hle).
      unfold Spec.reading in *.
      repeat (apply elem_of_cons in Hc2 as [->|Hc2];
              [cbn [state now step uploadProgress]; by rewrite Hfinal|]).
      by apply elem_of_nil in Hc2.
    + unfold Spec.reading in *. cbn [fmap list_fmap state now step uploadProgress].
      rewrite Hfinal. repeat constructor.
  - unfold Spec.reading in Hfinal. cbn [state now step uploadProgress].
    destruct (uploadProgress (state (now t4))) as [c tl]. simpl in *. by subst.
  - done.
  - done.
Qed.


Lemma elem_of_concat {A} (x : A) (l : list A) (ls : list (list A)) :
  x ∈ l → l ∈ ls → x ∈ concat ls.
Proof.
  intros Hx. induction ls as [|l' ls IH]; [by intros ?%elem_of_nil|].
  intros [->|Hl]%elem_of_cons; simpl; apply elem_of_app; [by left|right; by apply IH].
Qed.

Lemma attempt_log_succeeds fr : Spec.succeeds fr → Spec.attempt_log fr = [].
Proof.
  destruct fr as [file r]. rewrite attempt_log_payload. unfold Spec.succeeds. simpl.
  by intros [data ->].
Qed.

Lemma attempt_log_fails fr :
  ¬ Spec.succeeds fr →
  ∃ e, ("Error processing " +:+ name fr.1 +:+ ":", e) ∈ Spec.attempt_log fr.
Proof.
  destruct fr as [file r]. rewrite attempt_log_payload. unfold Spec.succeeds. simpl.
  destruct (Spec.payload r); [by intros []; eauto|]. intros _.
  eexists. apply elem_of_app. right. apply list_elem_of_here.
Qed.

(** X3. The console after a batch holds, after what it held, the entries
    of the failed attempts in input order: each failed file is named in an
    entry, and an attempt that succeeds leaves none.  A batch starts no
    download. *)
Theorem failed_attempts_are_logged
    (files : list (File * GenerateContentResult)) (m : Machine) :
  let run := handleFileUpload files (start m) in
  console (world (now run.2)) = console (world m) ++ concat (Spec.attempt_log <$> files) ∧
  Forall (λ fr, (Spec.succeeds fr ∧ Spec.attempt_log fr = []) ∨
                ∃ e, ("Error processing " +:+ name fr.1 +:+ ":", e)
                     ∈ console (world (now run.2))) files ∧
  downloads (world (now run.2)) = downloads (world m).
Proof.
  cbn zeta.
  assert (Hlog : console (world (now (handleFileUpload files (start m)).2))
                 = console (world m) ++ concat (Spec.attempt_log <$> files) ∧
                 downloads (world (now (handleFileUpload files (start m)).2))
                 = downloads (world m)).
  { destruct (decide (files = [])) as [->|Hfiles]; [simpl; by rewrite app_nil_r|].
    destruct (handleFileUpload_effects files m Hfiles)
      as (? & ? & _ & _ & _ & _ & _ & _ & _ & _ & _ & Hconsole & Hdl). done. }
  destruct Hlog as [Hconsole Hdl]. split; [done|]. split; [|done].
  apply Forall_forall. intros fr Hfr.
  destruct (decide (Spec.succeeds fr)) as [Hs|Hf].
  - left. split; [done|]. by apply attempt_log_succeeds.
  - right. destruct (attempt_log_fails fr Hf) as [e He]. exists e.
    rewrite Hconsole. apply elem_of_app. right.
    eapply elem_of_concat; [exact He|]. by apply list_elem_of_fmap_2.
Qed.

Lemma last_success_snoc init file r : ∀ i c,
  Spec.last_success i (init ++ [(file, r)]) c =
  match Spec.payload r with
  | Some _ => i + length init + 1
  | None => Spec.last_success i init c
  end.
Proof.
  induction init as [|[file' r'] init IH]; intros i c; simpl.
  - destruct (Spec.payload r); [lia|done].
  - rewrite IH. destruct (Spec.payload r); [lia|done].
Qed.

Lemma last_success_full files :
  files ≠ [] →
  Spec.last_success 0 files 0 = length files ↔
  ∃ init fr, files = init ++ [fr] ∧ Spec.succeeds fr.
Proof.
  intros Hfiles.
  destruct (decide (files = [])) as [?|_]; [done|].
  assert (∃ init fr, files = init ++ [fr]) as (init & [file r] & ->).
  { destruct files as [|x l] using rev_ind; [done|]. eauto. }
  rewrite last_success_snoc, length_app. simpl. unfold Spec.succeeds. split.
  - destruct (Spec.payload r) eqn:Hr.
    + intros _. exists init, (file, r). simpl. rewrite Hr. eauto.
    + intros Heq. pose proof (last_success_le init 0 0 ltac:(lia)). lia.
  - intros (init' & [file' r'] & [-> [= -> ->]]%app_inj_tail & [data Hdata]).
    simpl in Hdata. rewrite Hdata. lia.
Qed.

(** X4. While a batch that is not empty is processed, the counter is reset
    to 0 of the number of files and from then on its reading never
    decreases and never exceeds the total; it ends at one more than the
    index of the last file that was extracted, so it reaches the total
    exactly when the extraction of the last file succeeds. *)
Theorem progress_never_decreases
    (files : list (File * GenerateContentResult)) (m : Machine) :
  files ≠ [] →
  let run := handleFileUpload files (start m) in
  ∃ before counted,
    visited run.2 = before ++ counted ∧
    length before = 2 ∧
    Forall (λ m', uploadProgress (state m') = uploadProgress (state m)) before ∧
    head (uploadProgress ∘ state <$> counted)
    = Some {| current := 0; total := length files |} ∧
    Forall (λ m', total (uploadProgress (state m')) = length files ∧
                  Spec.reading m' ≤ length files) counted ∧
    StronglySorted (≤) (Spec.reading <$> counted) ∧
    uploadProgress (state (now run.2))
    = {| current := Spec.last_success 0 files 0; total := length files |} ∧
    (Spec.reading (now run.2) = length files ↔
       ∃ init fr, files = init ++ [fr] ∧ Spec.succeeds fr).
Proof.
  intros Hfiles. cbn zeta.
  destruct (handleFileUpload_effects files m Hfiles)
    as (m1 & counted & Hvisited & Hm1 & _ & _ & _ & _ & Hcounted & Hsorted & Hfinal & _).
  pose proof (last_success_le files 0 0 ltac:(lia)) as Hle. simpl in Hle.
  exists [m; m1], (counted ++ [now (handleFileUpload files (start m)).2]).
  split; [by rewrite Hvisited|]. split; [done|].
  split; [by repeat (apply Forall_cons; split)|].
  split.
  { revert Hvisited. unfold handleFileUpload.
    destruct (decide (files = [])) as [?|_]; [done|].
    unfold mbind, M_mbind, M_bind.
    cbn [setIsProcessing setUploadProgress setActiveTab setState].
    match goal with |- context [for_loop 0 files [] ?t] => set (t3 := t) end.
    destruct (for_loop_spec files 0 [] t3) as (Hout & (news & Hnews & _) & _).
    destruct (for_loop 0 files [] t3) as [out t4]. cbn [fst snd] in *. subst out.
    cbn [setDocuments setIsProcessing setState fst snd].
    rewrite !visited_step, Hnews. unfold visited at 1. cbn [t3 step past now app].
    intros [= _ Hrest]. apply (f_equal head) in Hrest.
    rewrite <- !app_assoc in Hrest. simpl in Hrest.
    destruct counted as [|m2 counted]; simpl in *.
    - destruct news; discriminate.
    - by injection Hrest as <-. }
  split.
  { eapply Forall_impl; [exact Hcounted|]. intros m' [? ?]. split; [done|lia]. }
  split; [done|]. split; [done|].
  unfold Spec.reading. rewrite Hfinal. simpl. by apply last_success_full.
Qed.

(** X5. A batch that is not empty sets the processing flag before anything
    else, keeps it set in every state up to the last and clears it at the
    end, however many extractions fail; it switches to the upload tab and
    never touches the chat history, the query, the chat's loading flag or
    the search term. *)
Theorem processing_flag_brackets_the_batch
    (files : list (File * GenerateContentResult)) (m : Machine) :
  files ≠ [] →
  let run := handleFileUpload files (start m) in
  ∃ during,
    visited run.2 = m :: during ++ [now run.2] ∧
    during ≠ [] ∧
    Forall (λ m', isProcessing (state m') = true) during ∧
    isProcessing (state (now run.2)) = false ∧
    activeTab (state (now run.2)) = upload ∧
    Forall (Spec.chat_untouched m) (visited run.2).
Proof.
  intros Hfiles. cbn zeta.
  destruct (handleFileUpload_effects files m Hfiles)
    as (m1 & counted & Hvisited & _ & Hduring & Hp & Ha & Hchat & _).
  exists (m1 :: counted). split; [done|]. split; [done|]. split.
  { eapply Forall_impl; [exact Hduring|]. by intros m' [? _]. }
  split; [done|]. split; [done|]. rewrite Hvisited.
  apply Forall_cons. split; [by repeat split|].
  change (m1 :: counted ++ [now (handleFileUpload files (start m)).2])
    with ((m1 :: counted) ++ [now (handleFileUpload files (start m)).2]).
  apply Forall_app. split.
  - eapply Forall_impl; [exact Hduring|]. by intros m' [_ ?].
  - by apply Forall_cons.
Qed.

Lemma extracted_app a b : ∀ n,
  Spec.extracted (a ++ b) n
  = Spec.extracted a n ++ Spec.extracted b (n + length (Spec.extracted a n)).
Proof.
  induction a as [|[file r] a IH]; intros n; simpl.
  - by rewrite Nat.add_0_r.
  - destruct (Spec.payload r); simpl; rewrite IH; [|done].
    do 3 f_equal. lia.
Qed.

Lemma upload_summary files m :
  let m' := Spec.perform (Spec.Upload files) m in
  documents (state m') = documents (state m) ++ Spec.extracted files (uuids (world m)) ∧
  uuids (world m') = uuids (world m) + length (Spec.extracted files (uuids (world m))) ∧
  requests (world m')
  = requests (world m) ++ map (λ fr, ExtractionRequest fr.1 required) files ∧
  console (world m') = console (world m) ++ concat (Spec.attempt_log <$> files) ∧
  downloads (world m') = downloads (world m).
Proof.
  cbn zeta. destruct (decide (files = [])) as [->|Hfiles].
  - simpl. by rewrite !app_nil_r, Nat.add_0_r.
  - destruct (handleFileUpload_spec files m Hfiles)
      as (_ & _ & _ & _ & _ & _ & _ & Hd & _ & Hu & Hr).
    destruct (handleFileUpload_effects files m Hfiles)
      as (? & ? & _ & _ & _ & _ & _ & _ & _ & _ & _ & Hconsole & Hdl).
    done.
Qed.

(** X6. Uploading two batches one after the other leaves the same corpus,
    the same identifiers drawn, the same requests and the same log as
    uploading the two as one batch. *)
Theorem uploads_compose (a b : list (File * GenerateContentResult)) (m : Machine) :
  let one_by_one := Spec.run [Spec.Upload a; Spec.Upload b] m in
  let at_once := Spec.run [Spec.Upload (a ++ b)] m in
  documents (state one_by_one) = documents (state at_once) ∧
  world one_by_one = world at_once.
Proof.
  cbn zeta. unfold Spec.run. cbn [foldl].
  destruct (upload_summary a m) as (Hd1 & Hu1 & Hr1 & Hc1 & Hl1).
  destruct (upload_summary b (Spec.perform (Spec.Upload a) m)) as (Hd2 & Hu2 & Hr2 & Hc2 & Hl2).
  destruct (upload_summary (a ++ b) m) as (Hd & Hu & Hr & Hc & Hl).
  cbn zeta in *. rewrite Hd1, Hu1 in Hd2. rewrite Hu1 in Hu2. rewrite Hr1 in Hr2.
  rewrite Hc1 in Hc2. rewrite Hl1 in Hl2.
  rewrite extracted_app in Hd, Hu. rewrite map_app in Hr. rewrite fmap_app, concat_app in Hc.
  split.
  - by rewrite Hd2, Hd, <- app_assoc.
  - destruct (world (Spec.perform (Spec.Upload b) (Spec.perform (Spec.Upload a) m))),
             (world (Spec.perform (Spec.Upload (a ++ b)) m)).
    simpl in *. subst. f_equal.
    + rewrite length_app. lia.
    + by rewrite <- app_assoc.
    + by rewrite <- app_assoc.
Qed.

End Batch_effects.

(** X4 at work: of a letter that is extracted and a memo that is not, the
    counter ends at 1 of 2. *)
Lemma progress_never_decreases_witness :
  let run := App.handleFileUpload Reference.mixed_batch (App.start Reference.fresh_machine) in
  Reference.mixed_batch ≠ [] ∧
  App.uploadProgress (App.state (App.now run.2)) = {| App.current := 1; App.total := 2 |} ∧
  ¬ (∃ init fr, Reference.mixed_batch = init ++ [fr] ∧ Spec.succeeds fr).
Proof.
  cbn zeta. assert (Hfiles : Reference.mixed_batch ≠ []) by done.
  destruct (progress_never_decreases Reference.mixed_batch Reference.fresh_machine Hfiles)
    as (before & counted & _ & _ & _ & _ & _ & _ & Hfinal & Hfull).
  split; [exact Hfiles|]. split; [exact Hfinal|].
  intros Hlast. apply Hfull in Hlast. unfold Spec.reading in Hlast.
  rewrite Hfinal in Hlast. discriminate.
Defined.

(** X5 at work: the same batch ends with the flag cleared and the chat as
    it was. *)
Lemma processing_flag_witness :
  let run := App.handleFileUpload Reference.mixed_batch (App.start Reference.fresh_machine) in
  Reference.mixed_batch ≠ [] ∧
  App.isProcessing (App.state (App.now run.2)) = false ∧
  App.chatMessages (App.state (App.now run.2)) = [].
Proof.
  cbn zeta. assert (Hfiles : Reference.mixed_batch ≠ []) by done.
  destruct (processing_flag_brackets_the_batch Reference.mixed_batch
              Reference.fresh_machine Hfiles) as (during & _ & _ & _ & Hflag & _ & _).
  split; [exact Hfiles|]. split; [exact Hflag|reflexivity].
Defined.

(** ** The chat handler and the request it sends *)

Section Chat_effects.
Context `{Platform}.
Import Gemini App.

Lemma interrogateDocuments_unfold query documents history r w :
  interrogateDocuments query documents history r w =
  match context documents with
  | Throws e => (Throws e, w)
  | Returns ctx =>
      (match r with
       | Rejects msg => Throws (ServiceError msg)
       | Response text => Returns (or_else text fallback)
       end,
       logged (ChatRequest (systemPrompt ctx) (contents history query)) w)
  end.
Proof.
  unfold interrogateDocuments, mbind, W_bind, bind, pure, generateContent.
  destruct (context documents); [|done]. by destruct r.
Qed.

(** X7. When a submitted query is answered, the history grows by the
    user's turn and one assistant turn that carries the answer (the
    fallback message for an empty answer); the query box is cleared, the
    loading flag is down, the corpus is as it was, and exactly one request
    went out: the system prompt over the context of the corpus, the turns
    of the history as it was before this query, and the query last. *)
Theorem answered_query_appends_two_turns
    (m : Machine) (text : option string) (sent_at answered_at : nat) (ctx : string) :
  String_trim (query (state m)) ≠ "" →
  isChatLoading (state m) = false →
  context (documents (state m)) = Returns ctx →
  let run := handleSendMessage (Response text) sent_at answered_at (start m) in
  run.1 = Returns tt ∧
  chatMessages (state (now run.2)) = chatMessages (state m) ++
    [ {| Types.role := Types.user; Types.text := query (state m);
         Types.timestamp := sent_at |};
      {| Types.role := Types.assistant; Types.text := or_else text fallback;
         Types.timestamp := answered_at |} ] ∧
  query (state (now run.2)) = "" ∧
  isChatLoading (state (now run.2)) = false ∧
  documents (state (now run.2)) = documents (state m) ∧
  requests (world (now run.2)) = requests (world m) ++
    [ ChatRequest (systemPrompt ctx)
        (contents (map (λ t, (Types.role t, Types.text t)) (chatMessages (state m)))
                  (query (state m))) ] ∧
  console (world (now run.2)) = console (world m).
Proof.
  intros Hquery Hloading Hctx. unfold handleSendMessage. cbn [start now].
  rewrite bool_decide_eq_false_2, Hloading by done. cbn [orb].
  unfold mbind, M_mbind, M_bind, M_try_finally, M_try_catch, await,
    setChatMessages, setQuery, setIsChatLoading, setState, step. simpl.
  rewrite interrogateDocuments_unfold, Hctx. simpl.
  by rewrite <- app_assoc.
Qed.

(** X8. A submit while the query is blank or while a request is in flight
    does nothing at all: no state changes, no request goes out. *)
Theorem blank_or_busy_submit_does_nothing
    (m : Machine) (r : GenerateContentResult) (sent_at answered_at : nat) :
  String_trim (query (state m)) = "" ∨ isChatLoading (state m) = true →
  handleSendMessage r sent_at answered_at (start m) = (Returns tt, start m).
Proof.
  intros Hguard. unfold handleSendMessage. cbn [start now].
  destruct Hguard as [Hblank|Hbusy].
  - by rewrite bool_decide_eq_true_2.
  - rewrite Hbusy. by rewrite orb_true_r.
Qed.

(** X9. Whatever the service does, the chat handler completes normally,
    leaves the loading flag as it found it, never touches the corpus, the
    upload progress or the processing flag in any state it goes through,
    sends at most one request, and only ever appends to the history: at
    most two turns, of which the first is the user's. *)
Theorem chat_handler_is_contained
    (m : Machine) (r : GenerateContentResult) (sent_at answered_at : nat) :
  let run := handleSendMessage r sent_at answered_at (start m) in
  run.1 = Returns tt ∧
  isChatLoading (state (now run.2)) = isChatLoading (state m) ∧
  Forall (λ m', documents (state m') = documents (state m) ∧
                uploadProgress (state m') = uploadProgress (state m) ∧
                isProcessing (state m') = isProcessing (state m)) (visited run.2) ∧
  (∃ turns, chatMessages (state (now run.2)) = chatMessages (state m) ++ turns ∧
            length turns ≤ 2 ∧
            (turns = [] ∨ Types.role <$> head turns = Some Types.user)) ∧
  (∃ sent, requests (world (now run.2)) = requests (world m) ++ sent ∧ length sent ≤ 1) ∧
  uuids (world (now run.2)) = uuids (world m) ∧
  downloads (world (now run.2)) = downloads (world m).
Proof.
  cbn zeta. unfold handleSendMessage. cbn [start now].
  destruct (bool_decide (String_trim (query (state m)) = "") || isChatLoading (state m))
    eqn:Hguard.
  - simpl. split; [done|]. split; [done|]. split; [by repeat constructor|].
    split; [exists []; rewrite app_nil_r; auto|]. split; [|done].
    exists []. rewrite app_nil_r. auto.
  - apply orb_false_iff in Hguard as [_ Hloading]. rewrite Hloading.
    unfold mbind, M_mbind, M_bind, M_try_finally, M_try_catch, await,
      setChatMessages, setQuery, setIsChatLoading, setState, step. simpl.
    rewrite interrogateDocuments_unfold.
    destruct (context (documents (state m))) as [ctx|e]; [destruct r as [msg|text]|]; simpl.
    + split; [done|]. split; [done|]. split; [unfold visited; simpl; by repeat constructor|].
      split; [eexists [_]; auto|]. split; [|done]. eexists [_]. auto.
    + split; [done|]. split; [done|]. split; [unfold visited; simpl; by repeat constructor|].
      split; [eexists [_; _]; rewrite <- app_assoc; auto|]. split; [|done]. eexists [_]. auto.
    + split; [done|]. split; [done|]. split; [unfold visited; simpl; by repeat constructor|].
      split; [eexists [_]; auto|]. split; [|done]. exists []. rewrite app_nil_r. auto.
Qed.

Lemma systemPrompt_contains ctx s : substring_of s ctx → substring_of s (systemPrompt ctx).
Proof.
  intros Hs. unfold systemPrompt. do 17 apply substring_of_app_r. done.
Qed.

(** X10. The request of an interrogation over documents of the interface
    is grounded: its system instruction is the system prompt over the
    context and contains every document's fileName and content unmodified;
    its contents are the turns of the history in order, an assistant turn
    under the role model, followed by the query as the last user turn.
    The request is the only effect. *)
Theorem interrogation_request_is_grounded
    (query : string) (docs : list Types.ExtractedDocument)
    (history : list (Types.Role * string)) (r : GenerateContentResult) (w : World) :
  let run := interrogateDocuments query (Types.to_object <$> docs) history r w in
  ∃ instruction turns,
    run.2 = logged (ChatRequest instruction turns) w ∧
    instruction = systemPrompt (Array_join separator (Spec.labeled_block <$> docs)) ∧
    Forall (λ d, substring_of (Types.fileName d) instruction ∧
                 substring_of (Types.content d) instruction) docs ∧
    turns = ((λ h, (match h.1 with Types.user => "user" | Types.assistant => "model" end,
                    h.2)) <$> history) ++ [("user", query)] ∧
    last turns = Some ("user", query) ∧
    length turns = S (length history).
Proof.
  cbn zeta. rewrite interrogateDocuments_unfold, context_to_object. eexists _, _.
  split; [reflexivity|]. split; [done|]. split; [|split; [done|split]].
  - apply Forall_forall. intros d Hd. split; apply systemPrompt_contains.
    + eapply substring_of_Array_join; [|apply labeled_block_fileName].
      by apply list_elem_of_fmap_2.
    + eapply substring_of_Array_join; [|apply labeled_block_content].
      by apply list_elem_of_fmap_2.
  - unfold contents. by rewrite last_snoc.
  - unfold contents. rewrite length_app, length_map. simpl. lia.
Qed.

(** X11. When the context of the corpus cannot be rendered, the
    interrogation throws a TypeError before anything is sent: no request
    goes out and nothing else changes. *)
Theorem unrenderable_corpus_sends_nothing
    (query : string) (documents : list Object) (history : list (Types.Role * string))
    (r : GenerateContentResult) (w : World) (e : Exn) :
  context documents = Throws e →
  interrogateDocuments query documents history r w = (Throws TypeError, w).
Proof.
  intros Hctx. rewrite interrogateDocuments_unfold, Hctx.
  by rewrite (context_throws _ _ Hctx).
Qed.

End Chat_effects.

(** X7 at work: the question about the letter, answered. *)
Lemma answered_query_witness :
  let run := App.handleSendMessage (Gemini.Response (Some "She asks for the figures."))
               10 20 (App.start Reference.asking) in
  String_trim (App.query (App.state Reference.asking)) ≠ "" ∧
  App.isChatLoading (App.state Reference.asking) = false ∧
  Gemini.context (App.documents (App.state Reference.asking))
  = Returns (Spec.labeled_block Reference.letter) ∧
  App.chatMessages (App.state (App.now run.2))
  = [ {| Types.role := Types.user; Types.text := "What did Jane say?"; Types.timestamp := 10 |};
      {| Types.role := Types.assistant; Types.text := "She asks for the figures.";
         Types.timestamp := 20 |} ].
Proof.
  cbn zeta.
  assert (Hquery : String_trim (App.query (App.state Reference.asking)) ≠ "") by done.
  assert (Hctx : Gemini.context (App.documents (App.state Reference.asking))
                 = Returns (Spec.labeled_block Reference.letter)) by reflexivity.
  split; [exact Hquery|]. split; [reflexivity|]. split; [exact Hctx|].
  exact (proj1 (proj2 (answered_query_appends_two_turns Reference.asking
                         (Some "She asks for the figures.") 10 20 _
                         Hquery eq_refl Hctx))).
Defined.

(** X8 at work: a query of two spaces and a tab sends nothing. *)
Lemma blank_submit_witness :
  (String_trim (App.query (App.state Reference.blank)) = "" ∨
   App.isChatLoading (App.state Reference.blank) = true) ∧
  App.handleSendMessage (Gemini.Response (Some "unused")) 10 20 (App.start Reference.blank)
  = (Returns tt, App.start Reference.blank).
Proof.
  assert (Hguard : String_trim (App.query (App.state Reference.blank)) = "" ∨
                   App.isChatLoading (App.state Reference.blank) = true)
    by (left; reflexivity).
  split; [exact Hguard|].
  exact (blank_or_busy_submit_does_nothing Reference.blank _ 10 20 Hguard).
Defined.

(** X11 at work: a record whose content is an object with a toString
    property of its own. *)
Lemma unrenderable_corpus_witness :
  Gemini.context [Reference.opaque_record] = Throws TypeError ∧
  Gemini.interrogateDocuments "What did Jane say?" [Reference.opaque_record] []
    (Gemini.Response (Some "unused")) Reference.empty_world
  = (Throws TypeError, Reference.empty_world).
Proof.
  assert (Hctx : Gemini.context [Reference.opaque_record] = Throws TypeError)
    by reflexivity.
  split; [exact Hctx|].
  exact (unrenderable_corpus_sends_nothing _ _ _ _ _ _ Hctx).
Defined.

(** ** Deleting *)

Section Deleting.
Context `{Platform}.
Import Gemini App.

Lemma kept_spec id d : Spec.kept id d = true ↔ Get d "id" ≠ JString id.
Proof.
  unfold Spec.kept. rewrite negb_true_iff, <- not_true_iff_false, strict_eq_string_spec. done.
Qed.

Lemma filter_kept_idem id docs :
  List.filter (Spec.kept id) (List.filter (Spec.kept id) docs) = List.filter (Spec.kept id) docs.
Proof.
  induction docs as [|d docs IH]; [done|]. cbn [List.filter].
  destruct (Spec.kept id d) eqn:Hd; cbn [List.filter]; [rewrite Hd; by f_equal|done].
Qed.

Lemma filter_kept_comm a b docs :
  List.filter (Spec.kept a) (List.filter (Spec.kept b) docs)
  = List.filter (Spec.kept b) (List.filter (Spec.kept a) docs).
Proof.
  induction docs as [|d docs IH]; [done|]. cbn [List.filter].
  destruct (Spec.kept a d) eqn:Ha, (Spec.kept b d) eqn:Hb; cbn [List.filter];
    rewrite ?Ha, ?Hb, ?IH; done.
Qed.

Lemma filter_sublist {A} (f : A → bool) (l : list A) : sublist (List.filter f l) l.
Proof.
  induction l as [|x l IH]; [done|]. simpl. destruct (f x); by constructor.
Qed.

(** X12. Deleting by an id removes every document with that id, also when
    several share it, and nothing else: the documents with another id stay,
    in their order; no other part of the state and nothing outside it
    changes. *)
Theorem deleteDocument_removes_every_match (m : Machine) (id : string) :
  let m' := Spec.perform (Spec.Delete id) m in
  (JString id ∉ Spec.ids (documents (state m'))) ∧
  documents (state m') `sublist_of` documents (state m) ∧
  (∀ d, d ∈ documents (state m') ↔ d ∈ documents (state m) ∧ Get d "id" ≠ JString id) ∧
  Spec.chat_untouched m m' ∧
  uploadProgress (state m') = uploadProgress (state m) ∧
  isProcessing (state m') = isProcessing (state m) ∧
  activeTab (state m') = activeTab (state m) ∧
  world m' = world m.
Proof.
  cbn zeta. rewrite deleteDocument_documents.
  assert (Hin : ∀ d, d ∈ List.filter (Spec.kept id) (documents (state m))
                     ↔ d ∈ documents (state m) ∧ Get d "id" ≠ JString id).
  { intros d. rewrite !list_elem_of_In, filter_In, kept_spec. done. }
  split; [|split; [apply filter_sublist|split; [done|by repeat split]]].
  intros Hid. apply list_elem_of_fmap in Hid as (d & Hd & Hmem).
  apply Hin in Hmem as [_ Hne]. by apply Hne.
Qed.

(** X13. Deleting by the same id twice is deleting once, and deletions by
    two ids can be made in either order. *)
Theorem deletions_commute (m : Machine) (a b : string) :
  Spec.run [Spec.Delete a; Spec.Delete a] m = Spec.run [Spec.Delete a] m ∧
  Spec.run [Spec.Delete a; Spec.Delete b] m = Spec.run [Spec.Delete b; Spec.Delete a] m.
Proof.
  unfold Spec.run. cbn [foldl]. unfold Spec.perform, deleteDocument, setDocuments, setState.
  cbn [snd step now start state world documents isProcessing uploadProgress chatMessages
       query isChatLoading activeTab searchTerm].
  fold (Spec.kept a). fold (Spec.kept b). split.
  - by rewrite filter_kept_idem.
  - by rewrite filter_kept_comm.
Qed.

End Deleting.

(** ** Exports *)

Section Exports.
Context `{Platform}.
Import Gemini App.

Lemma export_text_throws (doc : Object) (e : Exn) :
  export_text doc = Throws e → e = TypeError.
Proof.
  unfold export_text, mbind, Outcome_bind.
  repeat (match goal with
          | |- context [ToString ?v] =>
              let Hv := fresh in
              destruct (ToString v) eqn:Hv; [|intros [= <-]; by eapply ToString_throws]
          end).
  done.
Qed.

Lemma export_name_throws (doc : Object) (e : Exn) :
  export_name doc = Throws e → e = TypeError.
Proof. unfold export_name. destruct (Get doc "fileName"); by intros [= <-]. Qed.

(** X14. Downloading a document never changes the state of the component
    and sends nothing.  It either starts exactly one download, of the
    rendered text under the rendered name, or it throws a TypeError (a
    field has no text, or the fileName is not a string) and starts none. *)
Theorem downloadDocument_all_or_nothing (doc : Object) (m : Machine) :
  let run := downloadDocument doc (start m) in
  state (now run.2) = state m ∧
  requests (world (now run.2)) = requests (world m) ∧
  uuids (world (now run.2)) = uuids (world m) ∧
  console (world (now run.2)) = console (world m) ∧
  match run.1 with
  | Returns _ =>
      ∃ download text,
        export_name doc = Returns download ∧ export_text doc = Returns text ∧
        downloads (world (now run.2))
        = downloads (world m) ++ [{| download := download; blob := text |}]
  | Throws e =>
      e = TypeError ∧ downloads (world (now run.2)) = downloads (world m) ∧
      (is_Some (thrown (export_text doc)) ∨ is_Some (thrown (export_name doc)))
  end.
Proof.
  cbn zeta. unfold downloadDocument, await, mbind, W_bind, bind, pure, click. simpl.
  destruct (export_text doc) as [text|e] eqn:Htext; simpl.
  - destruct (export_name doc) as [download|e] eqn:Hname; simpl.
    + repeat split. eauto.
    + repeat split; [by eapply export_name_throws|by right].
  - repeat split; [by eapply export_text_throws|by left].
Qed.

Lemma starts_with_pdf_app base rest :
  starts_with ".pdf" (base +:+ ".pdf" +:+ rest) = true →
  base = "" ∨ starts_with ".pdf" base = true.
Proof.
  intros Hstart.
  destruct base as [|c1 [|c2 [|c3 [|c4 base]]]]; [by left|..]; right; revert Hstart;
    change (".pdf" +:+ rest) with (String "." (String "p" (String "d" (String "f" rest))));
    rewrite ?string_app_cons, ?string_app_nil_l;
    simpl; repeat case_decide; subst; try done.
Qed.

Lemma substring_of_tail c s p : substring_of p s → substring_of p (String c s).
Proof. intros (a & b & ->). exists (String c a), b. by rewrite string_app_cons. Qed.

Lemma String_replace_first_pdf rep base rest :
  ¬ substring_of ".pdf" base →
  String_replace ".pdf" rep (base +:+ ".pdf" +:+ rest) = base +:+ rep +:+ rest.
Proof.
  induction base as [|c base IH]; intros Hbase.
  - rewrite !string_app_nil_l. reflexivity.
  - destruct (starts_with ".pdf" (String c base +:+ ".pdf" +:+ rest)) eqn:Hstart.
    + apply starts_with_pdf_app in Hstart as [?|Hstart]; [done|].
      apply starts_with_spec in Hstart as [tail Htail]. destruct Hbase.
      exists "", tail. by rewrite string_app_nil_l.
    + change (String c base +:+ ".pdf" +:+ rest)
        with (String c (base +:+ ".pdf" +:+ rest)) in *.
      cbn [String_replace]. rewrite Hstart.
      rewrite IH; [reflexivity|].
      intros Hsub. apply Hbase. by apply substring_of_tail.
Qed.

Lemma String_replace_absent pat rep s :
  ¬ substring_of pat s → String_replace pat rep s = s.
Proof.
  induction s as [|c s IH]; intros Hs.
  - destruct (starts_with pat "") eqn:Hstart; simpl; rewrite Hstart; [|done].
    apply starts_with_spec in Hstart as [tail Htail]. destruct Hs.
    exists "", tail. by rewrite string_app_nil_l.
  - cbn [String_replace].
    destruct (starts_with pat (String c s)) eqn:Hstart.
    + apply starts_with_spec in Hstart as [tail Htail]. destruct Hs.
      exists "", tail. by rewrite string_app_nil_l.
    + rewrite IH; [done|]. intros Hsub. apply Hs. by apply substring_of_tail.
Qed.

(** X15. The exported file is named after the document: the first
    occurrence of .pdf in the file name is cut out, wherever it stands and
    only the first, and _extracted.txt is appended; a file name without
    .pdf in lower case is kept whole. *)
Theorem export_name_cuts_first_pdf (d : Types.ExtractedDocument) (base : string) :
  ¬ substring_of ".pdf" base →
  (∀ rest, Types.fileName d = base +:+ ".pdf" +:+ rest →
     export_name (Types.to_object d) = Returns (base +:+ rest +:+ "_extracted.txt")) ∧
  (Types.fileName d = base →
     export_name (Types.to_object d) = Returns (base +:+ "_extracted.txt")).
Proof.
  intros Hbase. rewrite export_name_to_object. split.
  - intros rest ->. rewrite String_replace_first_pdf by done.
    by rewrite string_app_nil_l, string_app_assoc.
  - intros ->. by rewrite String_replace_absent.
Qed.

Lemma export_section_to_object (d : Types.ExtractedDocument) :
  export_section (Types.to_object d) = Returns (Spec.exported_section d).
Proof. reflexivity. Qed.

Lemma combinedText_to_object (docs : list Types.ExtractedDocument) :
  combinedText (Types.to_object <$> docs)
  = Returns (Array_join nl (Spec.exported_section <$> docs)).
Proof.
  unfold combinedText.
  assert (Array_map export_section (Types.to_object <$> docs)
          = Returns (Spec.exported_section <$> docs)) as ->; [|done].
  induction docs as [|d docs IH]; [done|].
  rewrite fmap_cons. cbn [Array_map]. rewrite export_section_to_object, IH. reflexivity.
Qed.

Lemma exported_section_fields (d : Types.ExtractedDocument) :
  Forall (λ field, substring_of field (Spec.exported_section d))
    [Types.fileName d; Types.sender d; Types.recipient d; Types.date d;
     Types.summary d; Types.content d].
Proof.
  unfold Spec.exported_section. repeat apply Forall_cons_2; [..|apply Forall_nil_2].
  - do 3 apply substring_of_app_r. apply substring_of_app_l, substring_of_refl.
  - do 6 apply substring_of_app_r. apply substring_of_app_l, substring_of_refl.
  - do 9 apply substring_of_app_r. apply substring_of_app_l, substring_of_refl.
  - do 12 apply substring_of_app_r. apply substring_of_app_l, substring_of_refl.
  - do 15 apply substring_of_app_r. apply substring_of_app_l, substring_of_refl.
  - do 21 apply substring_of_app_r. apply substring_of_app_l, substring_of_refl.
Qed.

Lemma before_first_app c date time :
  before_first c date = date → before_first c (date +:+ String c time) = date.
Proof.
  induction date as [|a date IH].
  - intros _. change (before_first c (String c time) = ""). simpl. by rewrite decide_True.
  - change (String a date +:+ String c time) with (String a (date +:+ String c time)).
    simpl. case_decide; [done|]. intros [= Hdate]. by rewrite IH.
Qed.

(** X16. Export All, on a corpus of documents of the interface: with an
    empty corpus nothing happens; otherwise exactly one download starts,
    named documind_export_, the date part of the ISO time stamp, .txt,
    whose text is the sections of the documents in corpus order, joined by
    line breaks, and contains every document's fileName, sender, recipient,
    date, summary and content unmodified.  The state of the component is
    never changed. *)
Theorem downloadAllDocuments_exports_the_corpus
    (docs : list Types.ExtractedDocument) (m : Machine) (toISOString : string) :
  documents (state m) = Types.to_object <$> docs →
  let run := downloadAllDocuments toISOString (start m) in
  let text := Array_join nl (Spec.exported_section <$> docs) in
  run.1 = Returns tt ∧
  state (now run.2) = state m ∧
  downloads (world (now run.2)) = downloads (world m) ++
    match docs with
    | [] => []
    | _ => [{| download := "documind_export_" +:+ before_first "T" toISOString +:+ ".txt";
               blob := text |}]
    end ∧
  Forall (λ d, Forall (λ field, substring_of field text)
                 [Types.fileName d; Types.sender d; Types.recipient d; Types.date d;
                  Types.summary d; Types.content d]) docs ∧
  (∀ date time, before_first "T" date = date →
     before_first "T" (date +:+ "T" +:+ time) = date).
Proof.
  intros Hdocs. cbn zeta.
  assert (Hrun : downloadAllDocuments toISOString (start m) =
            (Returns tt,
             match docs with
             | [] => start m
             | _ => step (λ m', {| state := state m';
                                   world := (click ("documind_export_" +:+
                                                    before_first "T" toISOString +:+ ".txt")
                                               (Array_join nl (Spec.exported_section <$> docs))
                                               (world m)).2 |}) (start m)
             end)).
  { unfold downloadAllDocuments. cbn [start now]. rewrite Hdocs.
    destruct docs as [|d docs]; [done|].
    rewrite decide_False by (rewrite length_fmap; simpl; lia).
    unfold await, mbind, W_bind, bind, pure. cbn [start now world].
    by rewrite combinedText_to_object. }
  rewrite Hrun. cbn [fst snd].
  split; [done|]. split; [by destruct docs|]. split; [|split].
  - destruct docs; simpl; [by rewrite app_nil_r|done].
  - apply Forall_forall. intros d Hd.
    eapply Forall_impl; [apply (exported_section_fields d)|]. intros field Hfield.
    eapply substring_of_Array_join; [|exact Hfield]. by apply list_elem_of_fmap_2.
  - intros date time Hdate. by apply before_first_app.
Qed.

End Exports.

(** X15 at work: the letter is exported as letter_extracted.txt. *)
Lemma export_name_witness :
  ¬ substring_of ".pdf" "letter" ∧
  App.export_name (Types.to_object Reference.letter) = Returns "letter_extracted.txt".
Proof.
  assert (Hbase : ¬ substring_of ".pdf" "letter").
  { intros Hsub. apply includes_spec in Hsub. discriminate. }
  split; [exact Hbase|].
  exact (proj1 (export_name_cuts_first_pdf Reference.letter "letter" Hbase) "" eq_refl).
Defined.

(** X16 at work: Export All on the corpus that holds the letter. *)
Lemma downloadAllDocuments_witness :
  let run := App.downloadAllDocuments "2026-11-02T10:35:00.000Z" (App.start Reference.asking) in
  App.documents (App.state Reference.asking) = Types.to_object <$> [Reference.letter] ∧
  Gemini.downloads (App.world (App.now run.2))
  = [{| Gemini.download := "documind_export_2026-11-02.txt";
        Gemini.blob := Spec.exported_section Reference.letter |}].
Proof.
  cbn zeta. split; [reflexivity|].
  exact (proj1 (proj2 (proj2 (downloadAllDocuments_exports_the_corpus [Reference.letter]
                                Reference.asking "2026-11-02T10:35:00.000Z" eq_refl)))).
Defined.

(** ** Searching the library, the latest extractions, absent fields *)

Section Library.
Context `{Platform}.
Import Gemini App.

Lemma lower_case_idem c : lower_case (lower_case c) = lower_case c.
Proof. destruct c as [[] [] [] [] [] [] [] []]; reflexivity. Qed.

Lemma String_toLowerCase_idem s :
  String_toLowerCase (String_toLowerCase s) = String_toLowerCase s.
Proof. induction s as [|c s IH]; [done|]. simpl. by rewrite lower_case_idem, IH. Qed.

Lemma found_b_spec term d : Spec.found_b term d = true ↔ Spec.found term d.
Proof.
  unfold Spec.found_b, Spec.found. rewrite !orb_true_iff, !includes_spec. tauto.
Qed.

Lemma matches_to_object term (d : Types.ExtractedDocument) :
  matches term (Types.to_object d) = Returns (Spec.found_b term d).
Proof.
  unfold matches, Spec.found_b.
  change (Get (Types.to_object d) "fileName") with (JString (number := number) (Types.fileName d)).
  change (Get (Types.to_object d) "sender") with (JString (number := number) (Types.sender d)).
  change (Get (Types.to_object d) "content") with (JString (number := number) (Types.content d)).
  simpl.
  destruct (includes (String_toLowerCase (Types.fileName d)) _); [done|].
  destruct (includes (String_toLowerCase (Types.sender d)) _); done.
Qed.

Lemma filteredDocs_to_object term (docs : list Types.ExtractedDocument) :
  filteredDocs (Types.to_object <$> docs) term
  = Returns (Types.to_object <$> List.filter (Spec.found_b term) docs).
Proof.
  unfold filteredDocs. induction docs as [|d docs IH]; [done|].
  rewrite fmap_cons. cbn [Array_filter List.filter]. rewrite matches_to_object, IH.
  simpl. by destruct (Spec.found_b term d).
Qed.

Lemma toLowerCase_throws v e : toLowerCase v = Throws e → e = TypeError.
Proof. destruct v; simpl; congruence. Qed.

Lemma toLowerCase_returns v s' :
  toLowerCase v = Returns s' → ∃ s, v = JString s ∧ s' = String_toLowerCase s.
Proof. destruct v; simpl; intros [= <-]; eauto. Qed.

(** The callback throws only a TypeError, and only on a record one of whose
    three searched fields is not a string. *)
Lemma matches_throws term doc e :
  matches term doc = Throws e →
  e = TypeError ∧
  ∃ k, k ∈ ["fileName"; "sender"; "content"] ∧ ∀ s, Get doc k ≠ JString s.
Proof.
  unfold matches.
  destruct (toLowerCase (Get doc "fileName")) as [fileName|e1] eqn:Hname; simpl.
  - destruct (includes fileName _); [done|].
    destruct (toLowerCase (Get doc "sender")) as [sender|e2] eqn:Hsender; simpl.
    + destruct (includes sender _); [done|].
      destruct (toLowerCase (Get doc "content")) as [content|e3] eqn:Hcontent; simpl; [done|].
      intros [= <-]. split; [by eapply toLowerCase_throws|].
      exists "content". split; [set_solver|]. intros s Hs. by rewrite Hs in Hcontent.
    + intros [= <-]. split; [by eapply toLowerCase_throws|].
      exists "sender". split; [set_solver|]. intros s Hs. by rewrite Hs in Hsender.
  - intros [= <-]. split; [by eapply toLowerCase_throws|].
    exists "fileName". split; [set_solver|]. intros s Hs. by rewrite Hs in Hname.
Qed.

Lemma Array_filter_throws {A} (f : A → Outcome bool) (l : list A) e :
  Array_filter f l = Throws e → ∃ x, x ∈ l ∧ f x = Throws e.
Proof.
  induction l as [|x l IH]; [done|]. cbn [Array_filter].
  destruct (f x) as [keep|e1] eqn:Hx; simpl.
  - destruct (Array_filter f l) as [kept|e2]; simpl; [done|].
    intros [= <-]. destruct (IH eq_refl) as (y & Hy & Hfy).
    exists y. split; [by apply list_elem_of_further|done].
  - intros [= <-]. exists x. split; [apply list_elem_of_here|done].
Qed.

Lemma Array_filter_one_throws {A} (f : A → Outcome bool) (l : list A) x e :
  x ∈ l → f x = Throws e → ∃ e', Array_filter f l = Throws e'.
Proof.
  induction l as [|y l IH]; [by intros ?%elem_of_nil|].
  intros [->|Hx]%elem_of_cons Hfx; cbn [Array_filter].
  - rewrite Hfx. by eexists.
  - destruct (f y); simpl; [|by eexists].
    destruct (IH Hx Hfx) as [e' ->]. by eexists.
Qed.

Lemma filteredDocs_throws documents term e :
  filteredDocs documents term = Throws e →
  e = TypeError ∧
  ∃ doc k, doc ∈ documents ∧ k ∈ ["fileName"; "sender"; "content"] ∧
           ∀ s, Get doc k ≠ JString s.
Proof.
  intros (doc & Hdoc & Hthrows)%Array_filter_throws.
  apply matches_throws in Hthrows as (-> & k & Hk & Hfield). eauto 6.
Qed.

(** X17. Over documents of the interface the search never fails: it returns
    the documents in which the search term occurs, letter case aside, in the
    file name, the sender or the content, in the order of the corpus, and
    no others. *)
Theorem search_keeps_the_matches (docs : list Types.ExtractedDocument) (term : string) :
  ∃ hits,
    filteredDocs (Types.to_object <$> docs) term = Returns (Types.to_object <$> hits) ∧
    hits `sublist_of` docs ∧
    ∀ d, d ∈ hits ↔ d ∈ docs ∧ Spec.found term d.
Proof.
  exists (List.filter (Spec.found_b term) docs).
  split; [apply filteredDocs_to_object|]. split; [apply filter_sublist|].
  intros d. rewrite !list_elem_of_In, filter_In, found_b_spec. done.
Qed.

(** X18. The search reads its term in lower case only: two terms with the
    same lower-case form select the same documents (or fail alike), and a
    term selects what its own lower-case form selects. *)
Theorem search_ignores_case_of_term (documents : list Object) (term : string) :
  (∀ term', String_toLowerCase term' = String_toLowerCase term →
            filteredDocs documents term' = filteredDocs documents term) ∧
  filteredDocs documents (String_toLowerCase term) = filteredDocs documents term.
Proof.
  assert (Hsame : ∀ term', String_toLowerCase term' = String_toLowerCase term →
                           filteredDocs documents term' = filteredDocs documents term).
  { intros term' Hterm. unfold filteredDocs, matches. by rewrite Hterm. }
  split; [exact Hsame|]. apply Hsame, String_toLowerCase_idem.
Qed.

(** X19. With the search box empty, every record whose file name is a
    string is listed, whatever its other fields are. *)
Theorem empty_search_lists_everything (documents : list Object) :
  Forall (λ doc, ∃ s, doc !! "fileName" = Some (JString s)) documents →
  filteredDocs documents "" = Returns documents.
Proof.
  unfold filteredDocs. induction 1 as [|doc documents [s Hs] _ IH]; [done|].
  cbn [Array_filter]. rewrite IH. unfold matches, Get. rewrite Hs. simpl.
  destruct (String_toLowerCase s); done.
Qed.

(** X20. A record in the corpus whose sender is not a string makes the
    search fail with a TypeError as soon as the term does not occur in its
    file name. *)
Theorem search_fails_without_sender (documents : list Object) (term : string)
    (doc : Object) (fileName : string) :
  doc ∈ documents →
  Get doc "fileName" = JString fileName →
  (∀ s, Get doc "sender" ≠ JString s) →
  ¬ substring_of (String_toLowerCase term) (String_toLowerCase fileName) →
  filteredDocs documents term = Throws TypeError.
Proof.
  intros Hdoc Hname Hsender Hmiss.
  assert (Hthrows : ∃ e, matches term doc = Throws e).
  { unfold matches. rewrite Hname. simpl.
    destruct (includes _ _) eqn:Hincl; [by apply includes_spec in Hincl|].
    destruct (Get doc "sender") eqn:Hs; simpl; eauto. by destruct (Hsender s). }
  destruct Hthrows as [e He].
  destruct (Array_filter_one_throws (matches term) documents doc e Hdoc He) as [e' He'].
  unfold filteredDocs. rewrite He'.
  by destruct (filteredDocs_throws documents term e' He') as [-> _].
Qed.

(** X21. The search fails with nothing but a TypeError, and only when the
    corpus holds a record whose file name, sender or content is not a
    string. *)
Theorem search_fails_only_on_untyped_field (documents : list Object) (term : string)
    (e : Exn) :
  filteredDocs documents term = Throws e →
  e = TypeError ∧
  ∃ doc k, doc ∈ documents ∧ k ∈ ["fileName"; "sender"; "content"] ∧
           ∀ s, Get doc k ≠ JString s.
Proof. apply filteredDocs_throws. Qed.

(** X22. Latest Extractions shows the last four documents of the corpus,
    newest first: at most four cards, and a new document takes the first
    place and pushes the fourth out. *)
Theorem latest_extractions_newest_first (documents : list Object) (doc : Object) :
  latest_extractions documents = take 4 (reverse documents) ∧
  length (latest_extractions documents) = length documents `min` 4 ∧
  latest_extractions (documents ++ [doc]) = doc :: take 3 (latest_extractions documents).
Proof.
  assert (Htake : ∀ l : list Object, latest_extractions l = take 4 (reverse l)).
  { intros l. unfold latest_extractions. by rewrite take_reverse. }
  split; [apply Htake|]. split.
  - rewrite Htake, length_take, length_reverse. lia.
  - rewrite !Htake, reverse_app. simpl. f_equal.
    rewrite take_take. done.
Qed.

Lemma ToString_shown (doc : Object) (k : string) :
  Spec.string_or_absent doc k → ToString (Get doc k) = Returns (Spec.shown doc k).
Proof. unfold Get, Spec.shown. by intros [->|[s ->]]. Qed.

(** X23. A record whose text fields are strings or absent is rendered
    without failure, in the context sent to the model and in both exports,
    and each absent field is written out as the word undefined. *)
Theorem absent_fields_read_undefined (doc : Object) :
  Forall (Spec.string_or_absent doc)
    ["fileName"; "sender"; "recipient"; "date"; "summary"; "content"] →
  let field k := Spec.shown doc k in
  document_block doc
  = Returns ("[Document: " +:+ field "fileName" +:+ ", Sender: " +:+ field "sender" +:+
             ", Recipient: " +:+ field "recipient" +:+ ", Date: " +:+ field "date" +:+
             "]" +:+ nl +:+ "Content: " +:+ field "content") ∧
  export_text doc
  = Returns ("FILENAME: " +:+ field "fileName" +:+ nl +:+
             "SENDER: " +:+ field "sender" +:+ nl +:+
             "RECIPIENT: " +:+ field "recipient" +:+ nl +:+
             "DATE: " +:+ field "date" +:+ nl +:+
             "SUMMARY: " +:+ field "summary" +:+ nl +:+ nl +:+
             "CONTENT:" +:+ nl +:+ field "content") ∧
  export_section doc
  = Returns (double_rule +:+ nl +:+
             "FILE: " +:+ field "fileName" +:+ nl +:+
             "SENDER: " +:+ field "sender" +:+ nl +:+
             "RECIPIENT: " +:+ field "recipient" +:+ nl +:+
             "DATE: " +:+ field "date" +:+ nl +:+
             "SUMMARY: " +:+ field "summary" +:+ nl +:+
             single_rule +:+ nl +:+
             "CONTENT:" +:+ nl +:+ field "content" +:+ nl +:+
             double_rule +:+ nl +:+ nl) ∧
  (∀ k, doc !! k = None → field k = "undefined").
Proof.
  intros Hfields. cbn zeta.
  apply Forall_cons in Hfields as [HfileName Hfields].
  apply Forall_cons in Hfields as [Hsender Hfields].
  apply Forall_cons in Hfields as [Hrecipient Hfields].
  apply Forall_cons in Hfields as [Hdate Hfields].
  apply Forall_cons in Hfields as [Hsummary Hfields].
  apply Forall_cons in Hfields as [Hcontent _].
  unfold document_block, export_text, export_section.
  rewrite !ToString_shown by done.
  split; [done|]. split; [done|]. split; [done|]. intros k Hk. unfold Spec.shown. by rewrite Hk.
Qed.

End Library.

(** X19 at work: the record that holds an identifier and a file name only
    is listed while the search box is empty. *)
Lemma empty_search_witness :
  Forall (λ doc : gmap string (JSValue Z), ∃ s, doc !! "fileName" = Some (JString s))
    [Reference.bare_record] ∧
  App.filteredDocs [Reference.bare_record] "" = Returns [Reference.bare_record].
Proof.
  assert (Hnames : Forall (λ doc : gmap string (JSValue Z),
                             ∃ s, doc !! "fileName" = Some (JString s))
                     [Reference.bare_record]).
  { apply Forall_cons_2; [by eexists|apply Forall_nil_2]. }
  split; [exact Hnames|]. exact (empty_search_lists_everything (H := Reference.platform) _ Hnames).
Defined.

(** X20 at work: the same record makes the search for jane fail. *)
Lemma search_fails_witness :
  Reference.bare_record ∈ [Reference.bare_record] ∧
  App.filteredDocs [Reference.bare_record] "jane" = Throws TypeError.
Proof.
  assert (Hin : Reference.bare_record ∈ [Reference.bare_record]) by apply list_elem_of_here.
  split; [exact Hin|].
  apply (search_fails_without_sender (H := Reference.platform) [Reference.bare_record]
           "jane" Reference.bare_record "letter.pdf" Hin eq_refl).
  - intros s Hs. discriminate Hs.
  - intros Hsub. apply includes_spec in Hsub. discriminate Hsub.
Defined.

(** X21 at work: that failure is a TypeError, and the record lacks a
    searched field. *)
Lemma search_failure_witness :
  App.filteredDocs [Reference.bare_record] "Jane" = Throws TypeError ∧
  ∃ doc k, doc ∈ [Reference.bare_record] ∧ k ∈ ["fileName"; "sender"; "content"] ∧
           ∀ s, Get doc k ≠ JString s.
Proof.
  split; [reflexivity|].
  exact (proj2 (search_fails_only_on_untyped_field (H := Reference.platform)
                  [Reference.bare_record] "Jane" TypeError eq_refl)).
Defined.

(** X23 at work: the block of the context for that record. *)
Lemma absent_fields_witness :
  Forall (Spec.string_or_absent Reference.bare_record)
    ["fileName"; "sender"; "recipient"; "date"; "summary"; "content"] ∧
  Gemini.document_block Reference.bare_record
  = Returns ("[Document: letter.pdf, Sender: undefined, Recipient: undefined, " +:+
             "Date: undefined]" +:+ nl +:+ "Content: undefined").
Proof.
  assert (Hfields : Forall (Spec.string_or_absent Reference.bare_record)
                      ["fileName"; "sender"; "recipient"; "date"; "summary"; "content"]).
  { apply Forall_cons_2; [right; by eexists|].
    repeat (apply Forall_cons_2; [by left|]). apply Forall_nil_2. }
  split; [exact Hfields|].
  exact (proj1 (absent_fields_read_undefined (H := Reference.platform)
                  Reference.bare_record Hfields)).
Defined.
